(** * Descriptor calculator of [2_RDKit/3_Descriptors/src/utils.py]

    A shallow embedding of the classes [Molecule] and
    [MolecularPropertiesCalculator], and the properties of [calculate],
    [_calculate_for_molecule] and [to_dataframe] that the specification
    states about them.

    Python dictionaries keep insertion order, and several statements are
    about that order, so a dictionary is an association list with unique
    keys, updated in place ([dict_set]).  RDKit, pydantic and pandas are
    libraries outside the repository: RDKit is the interface [Chem], of
    pydantic only the validation that the annotations of [Molecule] ask for
    is modelled, and of pandas nothing: the table is the dictionary
    [to_dataframe] hands to [DataFrame.from_dict]. *)

From stdpp Require Import base option strings list sets gmap.

Local Open Scope string_scope.
Local Open Scope list_scope.

(** ** Python dictionaries with string keys *)

Section dict.
Context {A : Type}.

(** [d[k] = v]: an existing key keeps its position, a new key goes last. *)
Fixpoint dict_set (k : string) (v : A) (d : list (string * A)) : list (string * A) :=
  match d with
  | [] => [(k, v)]
  | (k', v') :: d' =>
      if decide (k = k') then (k, v) :: d' else (k', v') :: dict_set k v d'
  end.

(** [d.get(k)] *)
Fixpoint dict_get (k : string) (d : list (string * A)) : option A :=
  match d with
  | [] => None
  | (k', v') :: d' => if decide (k = k') then Some v' else dict_get k d'
  end.

(** [d.keys()], in iteration order. *)
Definition dict_keys (d : list (string * A)) : list string := d.*1.

End dict.

(** The names of a sequence in the order of their first occurrence. *)
Fixpoint first_occurrences (l : list string) : list string :=
  match l with
  | [] => []
  | x :: l' => x :: filter (λ y, y ≠ x) (first_occurrences l')
  end.

(** ** The chemistry backend (RDKit) *)

Class Chem := {
  (** parsed structures, [rdkit.Chem.Mol] *)
  Mol : Type;
  (** descriptor values, Python floats *)
  Value : Type;
  (** [MolFromSmiles(s)]: [None] for a string that does not parse *)
  MolFromSmiles : string → option Mol;
  (** [getattr(Descriptors, name, None)]: [None] when the module has no
      such function; the function returns [None] here when it raises *)
  Descriptors : string → option (Mol → option Value);
  (** [str(molecule)] *)
  str : Mol → string;
}.

(** ** The registry [self.properties] *)

Record names := { full : string; abbrev : string }.

Definition self_properties : list (string * names) :=
  [ ("MolWt", {| full := "Molecular Weight"; abbrev := "MW" |});
    ("MolLogP", {| full := "LogP"; abbrev := "LogP" |});
    ("NumHDonors", {| full := "H-bond Donors"; abbrev := "HBD" |});
    ("NumHAcceptors", {| full := "H-bond Acceptors"; abbrev := "HBA" |});
    ("NumRotatableBonds", {| full := "Rotatable Bonds"; abbrev := "RB" |});
    ("NumAromaticRings", {| full := "Aromatic Rings"; abbrev := "AR" |});
    ("TPSA", {| full := "TPSA"; abbrev := "TPSA" |});
    ("HeavyAtomCount", {| full := "Heavy Atom Count"; abbrev := "HAC" |});
    ("FractionCSP3", {| full := "FractionCSP3"; abbrev := "FSP3" |});
    ("LabuteASA", {| full := "Labute ASA"; abbrev := "ASA" |}) ].

(** [names['abbrev'] if self.abbrev else names['full']] *)
Definition display (self_abbrev : bool) (n : names) : string :=
  if self_abbrev then abbrev n else full n.

(** [properties if properties else self.properties.keys()]: [None] and the
    empty list are both falsy. *)
Definition properties_to_calculate (properties : option (list string)) : list string :=
  match properties with
  | Some (k :: l) => k :: l
  | _ => dict_keys self_properties
  end.

(** ** Exceptions, values and records *)

Inductive exn :=
  | KeyError (desc_name : string)      (* line 78, names the descriptor *)
  | UnboundLocalError (var : string)   (* a local read before assignment *)
  | ValidationError                    (* pydantic, [Molecule(...)] *)
  | TypeError.                         (* [**None] in [to_dataframe] *)

(** A cell of an exported row: a float, the identifier, or [None]. *)
Inductive cell {C : Chem} :=
  | CNum (v : Value)
  | CStr (s : string)
  | CNone.

Section model.
Context {C : Chem}.

(** [class Molecule(BaseModel)].  The field [properties] is declared
    [Optional[Dict[str, float]]], so a stored mapping holds floats only. *)
Record Molecule := {
  name : string;
  smiles : option string;
  properties : option (list (string * Value));
}.

(** The validator of [smiles], lines 11-15. *)
Definition validate_smiles (v : option string) : exn + option string :=
  match v with
  | Some s => if MolFromSmiles s is Some _ then inr v else inl ValidationError
  | None => inr v
  end.

(** The validation of [properties: Optional[Dict[str, float]]]: [None] is
    not a float, so a mapping with a [None] value is refused. *)
Definition validate_properties (p : option (list (string * option Value)))
    : exn + option (list (string * Value)) :=
  match p with
  | None => inr None
  | Some d =>
      match mapM (λ kv : string * option Value, v ← kv.2; Some (kv.1, v)) d with
      | Some d' => inr (Some d')
      | None => inl ValidationError
      end
  end.

(** [Molecule(name=..., smiles=..., properties=...)] *)
Definition Molecule_new (n : string) (s : option string)
    (p : option (list (string * option Value))) : exn + Molecule :=
  match validate_smiles s, validate_properties p with
  | inr s', inr p' => inr {| name := n; smiles := s'; properties := p' |}
  | _, _ => inl ValidationError
  end.

(** An entry of the mapping [calculate] returns:
    [{'smiles': ..., 'properties': ...}]. *)
Record entry := {
  entry_smiles : option string;
  entry_properties : option (list (string * option Value));
}.

(** What [calculate] hands to the backend, in order: a structure entering
    [_calculate_for_molecule], and a call [descriptor_func(molecule)]. *)
Inductive event :=
  | Evaluate (molecule : Mol)
  | Compute (desc_name : string) (molecule : Mol).

(** The input shapes [calculate] distinguishes with [isinstance]. *)
Inductive item :=
  | ItemDict (d : list (string * string))
  | ItemObj (molecule : Mol).

Inductive input :=
  | InList (items : list item)
  | InDict (d : list (string * string))
  | InObj (molecule : Mol).

(** The fields [__init__] sets from its arguments; [self.properties] is the
    constant [self_properties] and [self.molecule_set] is the state below. *)
Record Calculator := {
  self_input_data : input;
  self_abbrev : bool;
}.

(** What [calculate] returns: [results], or the data of the table. *)
Inductive retval :=
  | RResults (results : list (string * entry))
  | RTable (data : list (string * list (string * cell))).

(** ** Computations over [self.molecule_set]

    A computation starts from the list [self.molecule_set] and gives an
    exception or a value, the list as it has become (a raised exception
    does not undo an [append]), and the events of the run. *)
Definition M (A : Type) : Type :=
  list Molecule → (exn + A) * list Molecule * list event.

Definition ret {A} (a : A) : M A := λ ms, (inr a, ms, []).

Definition bind {A B} (m : M A) (f : A → M B) : M B := λ ms,
  match m ms with
  | (inl e, ms', t) => (inl e, ms', t)
  | (inr a, ms', t) =>
      match f a ms' with
      | (r, ms'', t') => (r, ms'', t ++ t')
      end
  end.

Definition raise {A} (e : exn) : M A := λ ms, (inl e, ms, []).
Definition emit (ev : event) : M unit := λ ms, (inr (), ms, [ev]).
Definition lift {A} (r : exn + A) : M A := λ ms, (r, ms, []).
(** [self.molecule_set.append(m)] *)
Definition append (m : Molecule) : M unit := λ ms, (inr (), ms ++ [m], []).
Definition get_molecule_set : M (list Molecule) := λ ms, (inr ms, ms, []).

(** [for x in l: s = body(x, s)] *)
Fixpoint for_each {A S} (body : A → S → M S) (l : list A) (s : S) : M S :=
  match l with
  | [] => ret s
  | x :: l' => bind (body x s) (for_each body l')
  end.
End model.

Notation "x <- m ;; k" := (bind m (λ x, k))
  (at level 100, m at next level, right associativity, only parsing).

Section calculator.
Context {C : Chem}.

(** ** [_calculate_for_molecule], lines 76-88

    The locals of the loop are [result] and [key]; [key] is unbound
    ([None]) until line 83 has run once. *)
Fixpoint calculate_loop (abbrev_ : bool) (molecule : Mol)
    (todo : list string) (result : list (string * option Value))
    (key : option string) : M (list (string * option Value)) :=
  match todo with
  | [] => ret result
  | desc_name :: todo' =>
      match dict_get desc_name self_properties with
      | None => raise (KeyError desc_name)                       (* 77-78 *)
      | Some names_ =>                                            (* 79 *)
          match Descriptors desc_name with                        (* 81 *)
          | Some descriptor_func =>                               (* 82 *)
              let key' := display abbrev_ names_ in               (* 83 *)
              _ <- emit (Compute desc_name molecule) ;;
              match descriptor_func molecule with
              | Some v =>                                         (* 84 *)
                  calculate_loop abbrev_ molecule todo'
                    (dict_set key' (Some v) result) (Some key')
              | None =>                                           (* 87-88 *)
                  calculate_loop abbrev_ molecule todo'
                    (dict_set key' None result) (Some key')
              end
          | None =>                                               (* 85-86 *)
              match key with
              | Some k =>
                  calculate_loop abbrev_ molecule todo'
                    (dict_set k None result) key
              | None =>
                  (* line 86 raises UnboundLocalError, line 87 catches
                     it, and line 88 reads [key] again: this one
                     leaves the function *)
                  raise (UnboundLocalError "key")
              end
          end
      end
  end.

Definition _calculate_for_molecule (self : Calculator) (molecule : Mol)
    (properties_ : option (list string)) : M (list (string * option Value)) :=
  _ <- emit (Evaluate molecule) ;;
  calculate_loop (self_abbrev self) molecule
    (properties_to_calculate properties_) [] None.

(** ** [to_dataframe], lines 91-96: the dictionary [data] *)
Definition row (m : Molecule) : exn + list (string * cell) :=
  match properties m with
  | Some p =>
      inr (dict_set "smiles" (from_option CStr CNone (smiles m))
             (prod_map id CNum <$> p))
  | None => inl TypeError
  end.

Fixpoint to_dataframe_data (ms : list Molecule)
    (data : list (string * list (string * cell)))
    : exn + list (string * list (string * cell)) :=
  match ms with
  | [] => inr data
  | m :: ms' =>
      match row m with
      | inr r => to_dataframe_data ms' (dict_set (name m) r data)
      | inl e => inl e
      end
  end.

Definition to_dataframe : M (list (string * list (string * cell))) :=
  ms <- get_molecule_set ;; lift (to_dataframe_data ms []).

(** ** [calculate], lines 35-71 *)

(** Lines 41-47 and 55-61: one pair of a dictionary. *)
Definition calculate_named (self : Calculator) (properties_ : option (list string))
    (kv : string * string) (results : list (string * entry))
    : M (list (string * entry)) :=
  let '(name_, smiles_str) := kv in
  match MolFromSmiles smiles_str with
  | Some molecule =>
      calculated_properties <- _calculate_for_molecule self molecule properties_ ;;
      let results' :=
        dict_set name_ {| entry_smiles := Some smiles_str;
                          entry_properties := Some calculated_properties |} results in
      m <- lift (Molecule_new name_ (Some smiles_str) (Some calculated_properties)) ;;
      _ <- append m ;;
      ret results'
  | None =>
      ret (dict_set name_ {| entry_smiles := Some smiles_str;
                             entry_properties := None |} results)
  end.

(** Lines 50-52 and 64-66: an object taken to be a molecule. *)
Definition calculate_object (self : Calculator) (properties_ : option (list string))
    (molecule : Mol) (results : list (string * entry)) : M (list (string * entry)) :=
  calculated_properties <- _calculate_for_molecule self molecule properties_ ;;
  let results' :=
    dict_set (str molecule) {| entry_smiles := None;
                               entry_properties := Some calculated_properties |} results in
  m <- lift (Molecule_new (str molecule) None (Some calculated_properties)) ;;
  _ <- append m ;;
  ret results'.

Definition calculate_item (self : Calculator) (properties_ : option (list string))
    (it : item) (results : list (string * entry)) : M (list (string * entry)) :=
  match it with
  | ItemDict d => for_each (calculate_named self properties_) d results
  | ItemObj molecule => calculate_object self properties_ molecule results
  end.

Definition calculate_results (self : Calculator) (properties_ : option (list string))
    : M (list (string * entry)) :=
  match self_input_data self with
  | InList items => for_each (calculate_item self properties_) items []
  | InDict d => for_each (calculate_named self properties_) d []
  | InObj molecule => calculate_object self properties_ molecule []
  end.

Definition calculate (self : Calculator) (as_df : bool)
    (properties_ : option (list string)) : M retval :=
  results <- calculate_results self properties_ ;;
  if as_df then data <- to_dataframe ;; ret (RTable data)
  else ret (RResults results).
End calculator.

(** ** Definitions used to state the properties *)

Section statements.
Context {C : Chem}.

(** The three components of a run. *)
Definition outcome {A} (r : (exn + A) * list Molecule * list event) : exn + A := r.1.1.
Definition molecule_set {A} (r : (exn + A) * list Molecule * list event) : list Molecule := r.1.2.
Definition events {A} (r : (exn + A) * list Molecule * list event) : list event := r.2.

(** The input seen as the specification's Input Normalizer describes it:
    one triple per pair of a dictionary and per object, in iteration
    order, with its name, its raw identifier if it has one, and the
    structure it stands for if there is one. *)
Record normalized := {
  ne_name : string;
  ne_identifier : option string;
  ne_molecule : option Mol;
}.

Definition normalize_named (kv : string * string) : normalized :=
  {| ne_name := kv.1; ne_identifier := Some kv.2; ne_molecule := MolFromSmiles kv.2 |}.

Definition normalize_object (molecule : Mol) : normalized :=
  {| ne_name := str molecule; ne_identifier := None; ne_molecule := Some molecule |}.

Definition normalize_item (it : item) : list normalized :=
  match it with
  | ItemDict d => normalize_named <$> d
  | ItemObj molecule => [normalize_object molecule]
  end.

Definition normalize (inp : input) : list normalized :=
  match inp with
  | InList items => items ≫= normalize_item
  | InDict d => normalize_named <$> d
  | InObj molecule => [normalize_object molecule]
  end.

(** The entries that reach [_calculate_for_molecule]. *)
Definition evaluable (e : normalized) : bool := bool_decide (is_Some (ne_molecule e)).

(** What lines 41-47, 50-52, 55-61 and 64-66 do alike, on a normalized
    entry. *)
Definition calculate_entry (self : Calculator) (properties_ : option (list string))
    (e : normalized) (results : list (string * entry)) : M (list (string * entry)) :=
  match ne_molecule e with
  | Some molecule =>
      calculated_properties <- _calculate_for_molecule self molecule properties_ ;;
      m <- lift (Molecule_new (ne_name e) (ne_identifier e) (Some calculated_properties)) ;;
      _ <- append m ;;
      ret (dict_set (ne_name e)
             {| entry_smiles := ne_identifier e;
                entry_properties := Some calculated_properties |} results)
  | None =>
      ret (dict_set (ne_name e)
             {| entry_smiles := ne_identifier e; entry_properties := None |} results)
  end.

(** The exception the loop of [_calculate_for_molecule] ends with, if any:
    it depends on the requested keys and on which descriptor functions
    exist, not on the structure.  [bound] tells whether [key] is bound. *)
Fixpoint loop_status (todo : list string) (bound : bool) : option exn :=
  match todo with
  | [] => None
  | desc_name :: todo' =>
      match dict_get desc_name self_properties with
      | None => Some (KeyError desc_name)
      | Some _ =>
          match Descriptors desc_name with
          | Some _ => loop_status todo' true
          | None => if bound then loop_status todo' true
                    else Some (UnboundLocalError "key")
          end
      end
  end.

(** A requested key that is in the registry and has a descriptor function. *)
Definition supported (desc_name : string) : Prop :=
  is_Some (dict_get desc_name self_properties) ∧ is_Some (Descriptors desc_name).

(** A requested key whose descriptor function also returns on every
    structure. *)
Definition computable (desc_name : string) : Prop :=
  is_Some (dict_get desc_name self_properties) ∧
  ∃ f, Descriptors desc_name = Some f ∧ ∀ m, is_Some (f m).

(** The display names of a list of requested keys. *)
Definition display_names (abbrev_ : bool) (keys : list string) : list string :=
  omap (λ k, display abbrev_ <$> dict_get k self_properties) keys.

(** A Structure Record made from a normalized entry. *)
Definition record_of (m : Molecule) (e : normalized) : Prop :=
  name m = ne_name e ∧ smiles m = ne_identifier e ∧ is_Some (properties m).
(** A row of the exported table made from a Structure Record: its key is
    the name of the record, its columns are the display names of the
    record's properties and ['smiles']. *)
Definition row_for (kv : string * list (string * cell)) (m : Molecule) : Prop :=
  kv.1 = name m ∧ row m = inr kv.2 ∧
  ∃ p, properties m = Some p ∧
       ∀ c, c ∈ dict_keys kv.2 ↔ c = "smiles" ∨ c ∈ dict_keys p.

(** The columns of [pd.DataFrame.from_dict(data, orient='index')], line 95:
    the keys of all the rows together; a row without one of them has a
    missing value there. *)
Definition table_columns (data : list (string * list (string * cell))) : gset string :=
  ⋃ ((λ kv : string * list (string * cell), list_to_set (dict_keys kv.2)) <$> data).

(** Two runs that differ at most in the value they return: the same
    exception if any, the same [self.molecule_set] afterwards, the same
    events. *)
Definition same_effect {A} (x y : (exn + A) * list Molecule * list event) : Prop :=
  molecule_set x = molecule_set y ∧ events x = events y ∧
  ∀ err, outcome x = inl err ↔ outcome y = inl err.
End statements.




(** The same renaming on what [calculate] returns and keeps. *)
Section renamed.
Context {C : Chem}.




End renamed.

(** ** A small backend to run the calculator on

    Structures are the strings that parse, a descriptor value is a number
    (the length of the string), [missing] lists the descriptor functions
    the module does not have and [raising] those that raise. *)
Definition toy_smiles : list string :=
  ["CCO"; "c1ccccc1"; "CC(=O)Oc1ccccc1C(=O)O"].

Definition toy (missing raising : list string) : Chem := {|
  Mol := string;
  Value := nat;
  MolFromSmiles := λ s, if decide (s ∈ toy_smiles) then Some s else None;
  Descriptors := λ desc_name,
    if decide (desc_name ∈ missing) then None
    else Some (λ m, if decide (desc_name ∈ raising) then None else Some (String.length m));
  str := λ m, "<Mol " +:+ m +:+ ">";
|}.

Definition toy_calculator (C : Chem) (inp : @input C) (abbrev_ : bool) : @Calculator C :=
  {| self_input_data := inp; self_abbrev := abbrev_ |}.

(** A backend like [toy [] []], except that every descriptor function
    raises on the structures listed in [failing]. *)
Definition toy_failing (failing : list string) : Chem := {|
  Mol := string;
  Value := nat;
  MolFromSmiles := λ s, if decide (s ∈ toy_smiles) then Some s else None;
  Descriptors := λ desc_name,
    Some (λ m, if decide (m ∈ failing) then None else Some (String.length m));
  str := λ m, "<Mol " +:+ m +:+ ">";
|}.

(** ** Definitions used to state the further properties *)

Section further_statements.
Context {C : Chem}.

(** A property mapping without a null value. *)
Definition no_null (p : list (string * option Value)) : Prop :=
  Forall (λ kv, is_Some kv.2) p.

(** What the construction of a [Molecule] guarantees of a record: it has
    properties, and its identifier, if it has one, parses. *)
Definition valid_record (m : Molecule) : Prop :=
  is_Some (properties m) ∧ ∀ s, smiles m = Some s → is_Some (MolFromSmiles s).

(** An entry that [calculate] gets through: if it reaches the evaluator,
    the evaluator returns a mapping without a null value. *)
Definition entry_ok (self : Calculator) (requested : option (list string))
    (e : normalized) : Prop :=
  ∀ molecule, ne_molecule e = Some molecule →
    ∃ r, outcome (_calculate_for_molecule self molecule requested []) = inr r ∧
         no_null r.
End further_statements.

(** * Properties *)

(** ** Dictionaries *)

Section dict_facts.
Context {A : Type}.
Implicit Types (d : list (string * A)) (k x : string) (v : A).

Lemma dict_keys_set k v d :
  dict_keys (dict_set k v d) =
  if decide (k ∈ dict_keys d) then dict_keys d else dict_keys d ++ [k].
Proof.
  unfold dict_keys. induction d as [|[k' v'] d IH]; [done|].
  cbn [dict_set]. destruct (decide (k = k')) as [->|Hne].
  - rewrite decide_True; [done | left].
  - rewrite !fmap_cons, IH. cbn [fst].
    destruct (decide (k ∈ d.*1)) as [Hin|Hnin].
    + rewrite decide_True; [done | by right].
    + rewrite decide_False; [done|]. by intros [?|?]%elem_of_cons.
Qed.

Lemma elem_of_dict_keys_set x k v d :
  x ∈ dict_keys (dict_set k v d) ↔ x = k ∨ x ∈ dict_keys d.
Proof.
  rewrite dict_keys_set. case_decide as Hin.
  - split; [by right | by intros [->|?]].
  - rewrite elem_of_app, list_elem_of_singleton. tauto.
Qed.

Lemma NoDup_dict_set k v d : NoDup (dict_keys d) → NoDup (dict_keys (dict_set k v d)).
Proof.
  intros Hd. rewrite dict_keys_set. case_decide as Hin; [done|].
  apply NoDup_app. split_and!; [done | | apply NoDup_singleton].
  intros y Hy ->%list_elem_of_singleton. done.
Qed.

Lemma dict_get_set x k v d :
  dict_get x (dict_set k v d) = if decide (x = k) then Some v else dict_get x d.
Proof.
  induction d as [|[k' v'] d IH]; simpl.
  - by destruct (decide (x = k)).
  - destruct (decide (k = k')) as [->|Hne]; simpl.
    + by destruct (decide (x = k')).
    + rewrite IH. destruct (decide (x = k')) as [->|?]; [|done].
      by rewrite decide_False.
Qed.

End dict_facts.

Lemma filter_first_occurrences_ne (P : string → Prop) `{!∀ y, Decision (P y)}
    (x : string) (l : list string) :
  ¬ P x →
  filter P (filter (λ y, y ≠ x) l) = filter P l.
Proof.
  intros Hx. induction l as [|y l IH]; [done|].
  rewrite !filter_cons. destruct (decide (y ≠ x)) as [Hy|Hy].
  - rewrite filter_cons. destruct (decide (P y)); by rewrite IH.
  - apply dec_stable in Hy. subst. by rewrite decide_False.
Qed.

Lemma elem_of_first_occurrences (x : string) (l : list string) : x ∈ first_occurrences l ↔ x ∈ l.
Proof.
  induction l as [|y l IH]; simpl; [done|].
  rewrite !elem_of_cons, list_elem_of_filter, IH.
  destruct (decide (x = y)); tauto.
Qed.

Lemma NoDup_first_occurrences l : NoDup (first_occurrences l).
Proof.
  induction l as [|y l IH]; simpl; [constructor|].
  constructor; [|by apply NoDup_filter].
  rewrite list_elem_of_filter. by intros [? _].
Qed.

Lemma first_occurrences_sublist l : first_occurrences l `sublist_of` l.
Proof.
  induction l as [|y l IH]; simpl; [done|].
  apply sublist_skip. etrans; [apply sublist_filter | done].
Qed.

(** ** The registry *)

Lemma dict_get_elem_of {A} (k : string) (v : A) (d : list (string * A)) :
  dict_get k d = Some v → (k, v) ∈ d.
Proof.
  induction d as [|[k' v'] d IH]; simpl; [done|].
  case_decide as Hk; [intros [= ->]; subst; left | right; auto].
Qed.

Lemma registry_Forall (P : string → names → Prop) :
  Forall (λ kn, P kn.1 kn.2) self_properties →
  ∀ k n, dict_get k self_properties = Some n → P k n.
Proof.
  intros HP k n Hk%dict_get_elem_of.
  by apply (proj1 (Forall_forall _ _) HP (k, n)).
Qed.



(** ** Computations *)

Section monad_facts.
Context {C : Chem}.

Lemma bind_inr {A B} (m : M A) (f : A → M B) ms a ms1 t1 :
  m ms = (inr a, ms1, t1) →
  bind m f ms = ((f a ms1).1.1, (f a ms1).1.2, t1 ++ (f a ms1).2).
Proof. unfold bind. intros ->. by destruct (f a ms1) as [[? ?] ?]. Qed.

Lemma bind_inl {A B} (m : M A) (f : A → M B) ms e ms1 t1 :
  m ms = (inl e, ms1, t1) → bind m f ms = (inl e, ms1, t1).
Proof. unfold bind. by intros ->. Qed.

Lemma bind_inv_inr {A B} (m : M A) (f : A → M B) ms b ms2 t :
  bind m f ms = (inr b, ms2, t) →
  ∃ a ms1 t1 t2, m ms = (inr a, ms1, t1) ∧ f a ms1 = (inr b, ms2, t2) ∧ t = t1 ++ t2.
Proof.
  unfold bind. destruct (m ms) as [[[e|a] ms1] t1]; [done|].
  destruct (f a ms1) as [[r ms''] t'] eqn:Hf. intros [= -> -> <-].
  by exists a, ms1, t1, t'.
Qed.

Lemma bind_inv_inl {A B} (m : M A) (f : A → M B) ms e ms2 t :
  bind m f ms = (inl e, ms2, t) →
  m ms = (inl e, ms2, t) ∨
  ∃ a ms1 t1 t2, m ms = (inr a, ms1, t1) ∧ f a ms1 = (inl e, ms2, t2) ∧ t = t1 ++ t2.
Proof.
  unfold bind. destruct (m ms) as [[[e'|a] ms1] t1]; [by intros [= -> -> ->]; left|].
  destruct (f a ms1) as [[r ms''] t'] eqn:Hf. intros [= -> -> <-].
  right. by exists a, ms1, t1, t'.
Qed.

Lemma for_each_app {A S} (body : A → S → M S) l1 l2 s ms :
  for_each body (l1 ++ l2) s ms = bind (for_each body l1 s) (for_each body l2) ms.
Proof.
  revert s ms. induction l1 as [|x l1 IH]; intros s ms; simpl.
  - unfold bind, ret. destruct (for_each body l2 s ms) as [[? ?] ?]. done.
  - unfold bind in *. destruct (body x s ms) as [[[e|s'] ms1] t1]; [done|].
    rewrite IH. destruct (for_each body l1 s' ms1) as [[[e|s''] ms2] t2]; [done|].
    destruct (for_each body l2 s'' ms2) as [[? ?] ?]. by rewrite (assoc_L (++)).
Qed.
End monad_facts.

(** ** The loop of [_calculate_for_molecule] *)

Section loop_facts.
Context {C : Chem}.
Implicit Types (molecule : Mol) (todo : list string) (key : option string)
  (result : list (string * option Value)) (ms : list Molecule).

(** Lines 77-78: an unknown key. *)
Lemma loop_unknown a molecule d todo result key ms :
  dict_get d self_properties = None →
  calculate_loop a molecule (d :: todo) result key ms = (inl (KeyError d), ms, []).
Proof. intros Hd. cbn [calculate_loop]. by rewrite Hd. Qed.

(** Lines 82-84 and 87-88: the function exists; what it returns, or [None]
    when it raises, goes under the display name of this key. *)
Lemma loop_found a molecule d n f todo result key ms :
  dict_get d self_properties = Some n →
  Descriptors d = Some f →
  calculate_loop a molecule (d :: todo) result key ms =
  bind (emit (Compute d molecule))
    (λ _, calculate_loop a molecule todo
            (dict_set (display a n) (f molecule) result) (Some (display a n))) ms.
Proof.
  intros Hd Hf. cbn [calculate_loop]. rewrite Hd, Hf.
  unfold bind, emit. by destruct (f molecule).
Qed.

(** Lines 85-86 and 87-88 with [key] bound by an earlier iteration. *)
Lemma loop_missing_bound a molecule d n todo result k ms :
  dict_get d self_properties = Some n →
  Descriptors d = None →
  calculate_loop a molecule (d :: todo) result (Some k) ms =
  calculate_loop a molecule todo (dict_set k None result) (Some k) ms.
Proof. intros Hd Hf. cbn [calculate_loop]. by rewrite Hd, Hf. Qed.

(** Lines 85-86 and 87-88 with [key] unbound. *)
Lemma loop_missing_unbound a molecule d n todo result ms :
  dict_get d self_properties = Some n →
  Descriptors d = None →
  calculate_loop a molecule (d :: todo) result None ms =
  (inl (UnboundLocalError "key"), ms, []).
Proof. intros Hd Hf. cbn [calculate_loop]. by rewrite Hd, Hf. Qed.

(** The loop does not touch [self.molecule_set], and whether and how it
    fails is what [loop_status] says. *)
Lemma calculate_loop_status a molecule todo result key ms :
  ∃ t, match loop_status todo (if key is Some _ then true else false) with
       | Some e => calculate_loop a molecule todo result key ms = (inl e, ms, t)
       | None => ∃ r, calculate_loop a molecule todo result key ms = (inr r, ms, t)
       end.
Proof.
  revert result key. induction todo as [|d todo IH]; intros result key.
  { exists []. cbn [loop_status calculate_loop]. by exists result. }
  cbn [loop_status].
  destruct (dict_get d self_properties) as [n|] eqn:Hd;
    [|exists []; by apply loop_unknown].
  destruct (Descriptors d) as [f|] eqn:Hf.
  - destruct (IH (dict_set (display a n) (f molecule) result) (Some (display a n)))
      as [t Ht].
    exists (Compute d molecule :: t). rewrite (loop_found _ _ _ n f) by done.
    unfold bind, emit. destruct (loop_status todo true).
    + by rewrite Ht.
    + destruct Ht as [r ->]. by exists r.
  - destruct key as [k|].
    + destruct (IH (dict_set k None result) (Some k)) as [t Ht]. exists t.
      by rewrite (loop_missing_bound _ _ _ n).
    + exists []. by apply (loop_missing_unbound _ _ _ n).
Qed.

Lemma display_names_cons a d n todo :
  dict_get d self_properties = Some n →
  display_names a (d :: todo) = display a n :: display_names a todo.
Proof. intros Hd. unfold display_names. cbn [omap list_omap]. by rewrite Hd. Qed.

(** When every requested key is supported the loop returns, and the keys
    of its result are those it started with and the display names of the
    requested keys. *)
Lemma calculate_loop_keys a molecule todo result key ms :
  Forall supported todo →
  ∃ r t, calculate_loop a molecule todo result key ms = (inr r, ms, t) ∧
    (∀ x, x ∈ dict_keys r ↔ x ∈ dict_keys result ∨ x ∈ display_names a todo) ∧
    (NoDup (dict_keys result) → NoDup (dict_keys r)).
Proof.
  intros Hall. revert result key.
  induction Hall as [|d todo [[n Hd] [f Hf]] _ IH]; intros result key.
  { exists result, []. split_and!; [done | | done].
    intros x. unfold display_names. cbn [omap list_omap]. rewrite elem_of_nil. tauto. }
  destruct (IH (dict_set (display a n) (f molecule) result) (Some (display a n)))
    as (r & t & Hr & Hkeys & Hnd).
  exists r, (Compute d molecule :: t). split_and!.
  - rewrite (loop_found _ _ _ n f) by done. unfold bind, emit. by rewrite Hr.
  - intros x. rewrite Hkeys, elem_of_dict_keys_set, (display_names_cons _ _ n) by done.
    rewrite elem_of_cons. tauto.
  - intros Hres. by apply Hnd, NoDup_dict_set.
Qed.
End loop_facts.

(** ** Full and abbreviated display names *)

Section rename_facts.
Context {C : Chem}.
Implicit Types (molecule : Mol) (todo : list string) (key : option string)
  (result : list (string * option Value)) (ms : list Molecule).




End rename_facts.

(** ** One structure, one entry *)

Section entry_facts.
Context {C : Chem}.
Implicit Types (self : Calculator) (requested : option (list string))
  (e : normalized) (results : list (string * entry)) (ms : list Molecule).

Lemma evaluate_status self molecule requested ms :
  ∃ t, match loop_status (properties_to_calculate requested) false with
       | Some err => _calculate_for_molecule self molecule requested ms = (inl err, ms, t)
       | None => ∃ r, _calculate_for_molecule self molecule requested ms = (inr r, ms, t)
       end.
Proof.
  destruct (calculate_loop_status (self_abbrev self) molecule
              (properties_to_calculate requested) [] None ms) as [t Ht].
  exists (Evaluate molecule :: t). unfold _calculate_for_molecule, bind, emit.
  destruct (loop_status _ false); [by rewrite Ht|].
  destruct Ht as [r ->]. by exists r.
Qed.

Lemma evaluate_molecule_set self molecule requested ms r ms' t :
  _calculate_for_molecule self molecule requested ms = (r, ms', t) → ms' = ms.
Proof.
  destruct (evaluate_status self molecule requested ms) as [t' Ht'].
  destruct (loop_status _ false); [|destruct Ht' as [r' Ht']]; rewrite Ht'; congruence.
Qed.

Lemma Molecule_new_inv n s p m :
  Molecule_new n s (Some p) = inr m →
  name m = n ∧ smiles m = s ∧ is_Some (properties m).
Proof.
  unfold Molecule_new, validate_smiles, validate_properties.
  destruct s as [s|]; [destruct (MolFromSmiles s); [|done]|];
    (destruct (mapM _ p); [|done]); intros [= <-]; eauto.
Qed.

Lemma Molecule_new_inl n s p err : Molecule_new n s p = inl err → err = ValidationError.
Proof.
  unfold Molecule_new.
  destruct (validate_smiles s), (validate_properties p); by intros [= <-].
Qed.

(** Lines 46-47 and 60-61: an identifier that does not parse. *)
Lemma entry_not_evaluable self requested e results ms :
  ne_molecule e = None →
  calculate_entry self requested e results ms =
  (inr (dict_set (ne_name e)
          {| entry_smiles := ne_identifier e; entry_properties := None |} results),
   ms, []).
Proof. unfold calculate_entry. by intros ->. Qed.

(** An entry that reaches the evaluator when the requested keys make it
    fail: the exception leaves [calculate_entry] before the [append]. *)
Lemma entry_fails self requested e results ms molecule err :
  ne_molecule e = Some molecule →
  loop_status (properties_to_calculate requested) false = Some err →
  ∃ t, calculate_entry self requested e results ms = (inl err, ms, t).
Proof.
  intros He Hst. unfold calculate_entry. rewrite He.
  destruct (evaluate_status self molecule requested ms) as [t Ht].
  rewrite Hst in Ht. exists t. by apply bind_inl.
Qed.

(** What an entry that is processed without an exception leaves behind. *)
Lemma entry_inv_inr self requested e results ms results' ms' t :
  calculate_entry self requested e results ms = (inr results', ms', t) →
  ∃ en, results' = dict_set (ne_name e) en results ∧
    entry_smiles en = ne_identifier e ∧
    (is_Some (entry_properties en) ↔ is_Some (ne_molecule e)) ∧
    if evaluable e then ∃ m, ms' = ms ++ [m] ∧ record_of m e
    else ms' = ms ∧ t = [].
Proof.
  unfold calculate_entry, evaluable. destruct (ne_molecule e) as [molecule|] eqn:He.
  - intros (cp & ms1 & t1 & t2 & Hcp & Hrest & ->)%bind_inv_inr.
    apply evaluate_molecule_set in Hcp as Hms1. subst ms1.
    apply bind_inv_inr in Hrest as (m & ms2 & t3 & t4 & Hm & Hrest & ->).
    unfold lift in Hm. injection Hm as Hm <- <-.
    apply bind_inv_inr in Hrest as ([] & ms3 & t5 & t6 & Happ & Hret & ->).
    unfold append in Happ. injection Happ as <- <-.
    unfold ret in Hret. injection Hret as <- <- <-.
    eexists. split_and!; [done | done | |].
    + cbn [entry_properties]. split; eauto.
    + rewrite bool_decide_eq_true_2 by eauto. exists m. split; [done|].
      by apply Molecule_new_inv in Hm.
  - unfold ret. intros [= <- <- <-]. eexists. split_and!; [done | done | |].
    + cbn [entry_properties]. split; intros [? ?]; done.
    + rewrite bool_decide_eq_false_2; [done|]. by intros [? ?].
Qed.

(** An exception leaves [calculate_entry] before [self.molecule_set]
    changes; it is the one [loop_status] announces, or a validation error
    of [Molecule]. *)
Lemma entry_inv_inl self requested e results ms err ms' t :
  calculate_entry self requested e results ms = (inl err, ms', t) →
  ms' = ms ∧
  (loop_status (properties_to_calculate requested) false = Some err ∨
   loop_status (properties_to_calculate requested) false = None ∧ err = ValidationError).
Proof.
  unfold calculate_entry. destruct (ne_molecule e) as [molecule|]; [|done].
  destruct (evaluate_status self molecule requested ms) as [t0 Ht0].
  destruct (loop_status _ false) as [err0|].
  - rewrite (bind_inl _ _ _ _ _ _ Ht0). intros [= <- <- <-]. auto.
  - destruct Ht0 as [r Hr]. rewrite (bind_inr _ _ _ _ _ _ Hr).
    unfold bind, lift.
    destruct (Molecule_new _ _ _) as [err1|m] eqn:Hm; cbn.
    + apply Molecule_new_inl in Hm as ->. intros [= <- <- <-]. auto.
    + done.
Qed.
End entry_facts.

(** ** The loops of [calculate] *)

Section run_facts.
Context {C : Chem}.
Implicit Types (self : Calculator) (requested : option (list string))
  (e : normalized) (es : list normalized)
  (results : list (string * entry)) (ms : list Molecule).

Lemma named_entry self requested kv results ms :
  calculate_named self requested kv results ms =
  calculate_entry self requested (normalize_named kv) results ms.
Proof.
  destruct kv as [n s]. unfold calculate_named, calculate_entry, normalize_named.
  cbn [ne_molecule ne_name ne_identifier fst snd].
  by destruct (MolFromSmiles s).
Qed.

Lemma object_entry self requested molecule results ms :
  calculate_object self requested molecule results ms =
  calculate_entry self requested (normalize_object molecule) results ms.
Proof. done. Qed.

Lemma for_each_named self requested d results ms :
  for_each (calculate_named self requested) d results ms =
  for_each (calculate_entry self requested) (normalize_named <$> d) results ms.
Proof.
  revert results ms. induction d as [|kv d IH]; intros results ms; [done|].
  cbn [for_each fmap list_fmap]. unfold bind. rewrite named_entry.
  destruct (calculate_entry _ _ _ _ _) as [[[err|results'] ms1] t1]; [done|].
  by rewrite IH.
Qed.

Lemma item_entries self requested it results ms :
  calculate_item self requested it results ms =
  for_each (calculate_entry self requested) (normalize_item it) results ms.
Proof.
  destruct it as [d|molecule]; cbn [calculate_item normalize_item].
  - apply for_each_named.
  - rewrite object_entry. cbn [for_each]. unfold bind, ret.
    destruct (calculate_entry _ _ _ _ _) as [[[err|results'] ms1] t1]; [done|].
    by rewrite (right_id_L [] (++)).
Qed.

Lemma for_each_items self requested items results ms :
  for_each (calculate_item self requested) items results ms =
  for_each (calculate_entry self requested) (items ≫= normalize_item) results ms.
Proof.
  revert results ms. induction items as [|it items IH]; intros results ms; [done|].
  cbn [for_each mbind list_bind]. rewrite for_each_app. unfold bind.
  rewrite item_entries.
  destruct (for_each (calculate_entry self requested) (normalize_item it) results ms)
    as [[[err|results'] ms1] t1]; [done|].
  by rewrite IH.
Qed.

(** [calculate] runs over its input as over the normalized entries. *)
Lemma calculate_results_normalize self requested ms :
  calculate_results self requested ms =
  for_each (calculate_entry self requested) (normalize (self_input_data self)) [] ms.
Proof.
  unfold calculate_results, normalize. destruct (self_input_data self) as [items|d|molecule].
  - apply for_each_items.
  - apply for_each_named.
  - apply (item_entries self requested (ItemObj molecule)).
Qed.

(** Entries that do not reach the evaluator: no exception, no event, no
    Structure Record. *)
Lemma run_not_evaluable self requested es results ms :
  Forall (λ e, ne_molecule e = None) es →
  for_each (calculate_entry self requested) es results ms =
  (inr (foldl (λ r e, dict_set (ne_name e)
                 {| entry_smiles := ne_identifier e; entry_properties := None |} r)
          results es), ms, []).
Proof.
  intros Hes. revert results. induction Hes as [|e es He _ IH]; intros results; [done|].
  cbn [for_each foldl]. unfold bind. rewrite entry_not_evaluable by done. by rewrite IH.
Qed.

(** When the requested keys make the evaluator fail, the first entry that
    reaches it ends the run, and [self.molecule_set] is as it was. *)
Lemma run_fails self requested es results ms err :
  loop_status (properties_to_calculate requested) false = Some err →
  Exists (λ e, is_Some (ne_molecule e)) es →
  ∃ t, for_each (calculate_entry self requested) es results ms = (inl err, ms, t).
Proof.
  intros Hst Hex. revert results.
  induction es as [|e es IH]; intros results; [by apply Exists_nil in Hex|].
  cbn [for_each]. destruct (ne_molecule e) as [molecule|] eqn:He.
  - destruct (entry_fails self requested e results ms molecule err He Hst) as [t Ht].
    exists t. by apply bind_inl.
  - apply Exists_cons in Hex as [[? Hex]|Hex]; [congruence|].
    unfold bind. rewrite entry_not_evaluable by done.
    destruct (IH Hex (dict_set (ne_name e)
      {| entry_smiles := ne_identifier e; entry_properties := None |} results)) as [t ->].
    by exists t.
Qed.

(** A run that raises: the exception is the one [loop_status] announces,
    and then nothing was appended, or it is a validation error. *)
Lemma run_inv_inl self requested es results ms err ms' t :
  for_each (calculate_entry self requested) es results ms = (inl err, ms', t) →
  loop_status (properties_to_calculate requested) false = Some err ∧ ms' = ms ∨
  loop_status (properties_to_calculate requested) false = None ∧ err = ValidationError.
Proof.
  revert results ms t. induction es as [|e es IH]; intros results ms t; [done|].
  cbn [for_each]. intros [Hin|(r & ms1 & t1 & t2 & He & Hrest & ->)]%bind_inv_inl.
  - apply entry_inv_inl in Hin as [-> [?|[? ?]]]; auto.
  - apply IH in Hrest as [[Hst ->]|?]; [|by right]. left. split; [done|].
    destruct (ne_molecule e) as [molecule|] eqn:Hev.
    + destruct (entry_fails self requested e results ms molecule err Hev Hst) as [t' Ht'].
      congruence.
    + rewrite entry_not_evaluable in He by done. congruence.
Qed.
End run_facts.

Lemma filter_not_elem_of_snoc (K : list string) (x : string) (l : list string) :
  filter (λ y, y ∉ K ++ [x]) l = filter (λ y, y ∉ K) (filter (λ y, y ≠ x) l).
Proof.
  rewrite list_filter_filter. apply list_filter_iff. intros y.
  rewrite elem_of_app, list_elem_of_singleton. tauto.
Qed.

Lemma Forall_values_dict_set {A} (Q : A → Prop) k v (d : list (string * A)) :
  Q v → Forall (λ kv, Q kv.2) d → Forall (λ kv, Q kv.2) (dict_set k v d).
Proof.
  intros Hv Hd. induction Hd as [|[k' v'] d Hkv Hd IH]; cbn [dict_set].
  - by repeat constructor.
  - case_decide; constructor; auto.
Qed.

Section run_results.
Context {C : Chem}.
Implicit Types (self : Calculator) (requested : option (list string))
  (e : normalized) (es : list normalized)
  (results : list (string * entry)) (ms : list Molecule).

(** A run that returns: the names of the result in the order of their
    first occurrence, one Structure Record for every entry that reached the
    evaluator, and entries that come from the input. *)
Lemma run_inv_inr self requested es results ms results' ms' t :
  for_each (calculate_entry self requested) es results ms = (inr results', ms', t) →
  dict_keys results' =
    dict_keys results ++
    filter (λ n, n ∉ dict_keys results) (first_occurrences (ne_name <$> es)) ∧
  (∃ recs, ms' = ms ++ recs ∧ Forall2 record_of recs (filter (λ e, evaluable e) es)) ∧
  (∀ n en, dict_get n results' = Some en →
     dict_get n results = Some en ∨
     ∃ e, e ∈ es ∧ ne_name e = n ∧ entry_smiles en = ne_identifier e ∧
          (is_Some (entry_properties en) ↔ is_Some (ne_molecule e))).
Proof.
  revert results ms t. induction es as [|e es IH]; intros results ms t.
  { unfold for_each, ret. intros [= <- <- <-]. split_and!.
    - cbn. by rewrite (right_id_L [] (++)).
    - exists []. by rewrite (right_id_L [] (++)).
    - auto. }
  cbn [for_each].
  intros (r1 & ms1 & t1 & t2 & He & Hrest & ->)%bind_inv_inr.
  apply entry_inv_inr in He as (en & -> & Hsm & Hpr & Hms).
  apply IH in Hrest as (Hkeys & (recs & -> & Hrecs) & Hget). split_and!.
  - rewrite Hkeys, dict_keys_set. cbn [fmap list_fmap first_occurrences].
    case_decide as Hin.
    + rewrite filter_cons_False by (by intros []).
      by rewrite filter_first_occurrences_ne by (by intros []).
    + rewrite filter_cons_True by done.
      by rewrite filter_not_elem_of_snoc, <- (assoc_L (++)).
  - destruct (evaluable e) eqn:Hev.
    + destruct Hms as (m & -> & Hm). exists (m :: recs).
      rewrite <- (assoc_L (++)). split; [done|].
      rewrite filter_cons_True by (by rewrite Hev). by constructor.
    + destruct Hms as [-> _]. exists recs. split; [done|].
      rewrite filter_cons_False; [done|]. rewrite Hev. by intros [].
  - intros n en' [Hn|(e' & ? & ? & ? & ?)]%Hget.
    + rewrite dict_get_set in Hn. case_decide as Hname; [|by left].
      injection Hn as <-. right. exists e. split_and!; [left | done..].
    + right. exists e'. split_and!; [by right | done..].
Qed.

(** With computable keys, every value the loop records is a number. *)
Lemma calculate_loop_computable a molecule todo result key ms :
  Forall computable todo →
  Forall (λ kv : string * option Value, is_Some kv.2) result →
  ∃ r t, calculate_loop a molecule todo result key ms = (inr r, ms, t) ∧
         Forall (λ kv : string * option Value, is_Some kv.2) r.
Proof.
  intros Hall. revert result key.
  induction Hall as [|d todo [[n Hd] (f & Hf & Hfm)] _ IH]; intros result key Hres.
  { by exists result, []. }
  destruct (IH (dict_set (display a n) (f molecule) result) (Some (display a n)))
    as (r & t & Hr & Hvals).
  { by apply (Forall_values_dict_set is_Some). }
  exists r, (Compute d molecule :: t). split; [|done].
  rewrite (loop_found _ _ _ n f) by done. unfold bind, emit. by rewrite Hr.
Qed.

Lemma validate_properties_Some (r : list (string * option Value)) :
  Forall (λ kv : string * option Value, is_Some kv.2) r →
  ∃ p, validate_properties (Some r) = inr (Some p).
Proof.
  intros Hr. unfold validate_properties.
  destruct (mapM_is_Some_2 (λ kv : string * option Value, v ← kv.2; Some (kv.1, v)) r)
    as [p ->]; [|by exists p].
  eapply Forall_impl; [exact Hr|]. intros [k [v|]] [? ?]; by simplify_eq/=.
Qed.

(** With computable keys, an entry whose identifier is the one its
    structure was parsed from is processed without an exception. *)
Lemma entry_total self requested e results ms :
  Forall computable (properties_to_calculate requested) →
  (∀ s, ne_identifier e = Some s → MolFromSmiles s = ne_molecule e) →
  ∃ results' ms' t,
    calculate_entry self requested e results ms = (inr results', ms', t).
Proof.
  intros Hall Hwf. unfold calculate_entry.
  destruct (ne_molecule e) as [molecule|] eqn:He; [|by eexists _, _, _].
  destruct (calculate_loop_computable (self_abbrev self) molecule
              (properties_to_calculate requested) [] None ms Hall)
    as (r & t & Hr & Hvals); [constructor|].
  destruct (validate_properties_Some r Hvals) as [p Hp].
  assert (_calculate_for_molecule self molecule requested ms =
          (inr r, ms, Evaluate molecule :: t)) as Hev.
  { unfold _calculate_for_molecule, bind, emit. by rewrite Hr. }
  rewrite (bind_inr _ _ _ _ _ _ Hev).
  assert (∃ m, Molecule_new (ne_name e) (ne_identifier e) (Some r) = inr m) as [m Hm].
  { unfold Molecule_new. rewrite Hp. unfold validate_smiles.
    destruct (ne_identifier e) as [s|]; [|by eexists].
    rewrite (Hwf s eq_refl). by eexists. }
  unfold bind, lift, append, ret. rewrite Hm. by eexists _, _, _.
Qed.

Lemma run_total self requested es results ms :
  Forall computable (properties_to_calculate requested) →
  Forall (λ e, ∀ s, ne_identifier e = Some s → MolFromSmiles s = ne_molecule e) es →
  ∃ results' ms' t,
    for_each (calculate_entry self requested) es results ms = (inr results', ms', t).
Proof.
  intros Hall Hes. revert results ms.
  induction Hes as [|e es He _ IH]; intros results ms; [by eexists _, _, _|].
  destruct (entry_total self requested e results ms Hall He) as (r1 & ms1 & t1 & H1).
  destruct (IH r1 ms1) as (r2 & ms2 & t2 & H2).
  exists r2, ms2, (t1 ++ t2). cbn [for_each]. rewrite (bind_inr _ _ _ _ _ _ H1).
  by rewrite H2.
Qed.

Lemma normalize_wf inp :
  Forall (λ e, ∀ s, ne_identifier e = Some s → MolFromSmiles s = ne_molecule e)
    (normalize inp).
Proof.
  assert (∀ d : list (string * string),
    Forall (λ e, ∀ s, ne_identifier e = Some s → MolFromSmiles s = ne_molecule e)
      (normalize_named <$> d)) as Hd.
  { intros d. apply Forall_fmap, Forall_forall. by intros [n s] _ s' [= <-]. }
  destruct inp as [items|d|molecule]; cbn [normalize].
  - apply Forall_bind, Forall_forall. intros [d|molecule] _; cbn [normalize_item].
    + apply Hd.
    + by repeat constructor.
  - apply Hd.
  - by repeat constructor.
Qed.
End run_results.

(** ** The exported table *)

Section table_facts.
Context {C : Chem}.
Implicit Types (ms : list Molecule) (data : list (string * list (string * cell))).

Lemma dict_set_fresh {A} k (v : A) (d : list (string * A)) :
  k ∉ dict_keys d → dict_set k v d = d ++ [(k, v)].
Proof.
  unfold dict_keys. induction d as [|[k' v'] d IH]; intros Hk; cbn [dict_set]; [done|].
  rewrite fmap_cons, not_elem_of_cons in Hk. destruct Hk as [Hne Hk].
  rewrite decide_False by done. by rewrite IH.
Qed.

(** [to_dataframe] raises only on a record without properties. *)
Lemma to_dataframe_data_inl ms data err :
  to_dataframe_data ms data = inl err → err = TypeError.
Proof.
  revert data. induction ms as [|m ms IH]; intros data; cbn [to_dataframe_data]; [done|].
  unfold row. destruct (properties m); [apply IH | by intros [= <-]].
Qed.

Lemma to_dataframe_data_None ms data m :
  m ∈ ms → properties m = None → to_dataframe_data ms data = inl TypeError.
Proof.
  intros Hm Hp. revert data.
  induction Hm as [m ms|m m' ms _ IH]; intros data; cbn [to_dataframe_data].
  - unfold row. by rewrite Hp.
  - unfold row. destruct (properties m'); [by apply IH | done].
Qed.

Lemma row_columns m p :
  properties m = Some p →
  ∃ r, row m = inr r ∧ ∀ c, c ∈ dict_keys r ↔ c = "smiles" ∨ c ∈ dict_keys p.
Proof.
  intros Hp. unfold row. rewrite Hp. eexists. split; [done|].
  intros c. rewrite elem_of_dict_keys_set. unfold dict_keys.
  rewrite <- list_fmap_compose.
  by rewrite (list_fmap_ext (fst ∘ prod_map id CNum) fst p) by (by intros ? [? ?] ?).
Qed.

(** Records with properties and distinct names give one row each, in the
    order of the records. *)
Lemma to_dataframe_rows ms data :
  Forall (λ m, is_Some (properties m)) ms →
  NoDup (dict_keys data ++ (name <$> ms)) →
  ∃ rows, to_dataframe_data ms data = inr (data ++ rows) ∧ Forall2 row_for rows ms.
Proof.
  intros Hms. revert data. induction Hms as [|m ms [p Hp] _ IH]; intros data Hnd.
  { exists []. by rewrite (right_id_L [] (++)). }
  destruct (row_columns m p Hp) as (r & Hr & Hcols).
  cbn [to_dataframe_data]. rewrite Hr.
  rewrite fmap_cons in Hnd.
  assert (name m ∉ dict_keys data) as Hfresh.
  { apply NoDup_app in Hnd as (_ & Hdisj & _). intros Hin.
    apply (Hdisj _ Hin). left. }
  rewrite dict_set_fresh by done.
  destruct (IH (data ++ [(name m, r)])) as (rows & Hrows & Hall).
  { unfold dict_keys in *. rewrite fmap_app, <- (assoc_L (++)). done. }
  exists ((name m, r) :: rows). rewrite Hrows, <- (assoc_L (++)). split; [done|].
  constructor; [|done]. split_and!; [done | done | by exists p].
Qed.
Lemma to_dataframe_data_inr ms data0 data :
  to_dataframe_data ms data0 = inr data → Forall (λ m, is_Some (properties m)) ms.
Proof.
  revert data0. induction ms as [|m ms IH]; intros data0; [by constructor|].
  cbn [to_dataframe_data]. destruct (row m) as [err|r] eqn:Hr; [done|].
  intros Hdata. constructor; [|by eapply IH].
  unfold row in Hr. by destruct (properties m); [eexists|].
Qed.

Lemma to_dataframe_data_inl_None ms data0 err :
  to_dataframe_data ms data0 = inl err → ∃ m, m ∈ ms ∧ properties m = None.
Proof.
  revert data0. induction ms as [|m ms IH]; intros data0; cbn [to_dataframe_data]; [done|].
  destruct (row m) as [err'|r] eqn:Hr.
  - intros _. exists m. split; [left|]. unfold row in Hr. by destruct (properties m).
  - intros (m' & Hm' & Hp)%IH. exists m'. split; [by right | done].
Qed.

(** The columns of a table whose rows are made from records. *)
Lemma table_columns_rows data ms :
  Forall2 row_for data ms →
  ∀ c, c ∈ table_columns data ↔
       ∃ m, m ∈ ms ∧ (c = "smiles" ∨ ∃ p, properties m = Some p ∧ c ∈ dict_keys p).
Proof.
  intros Hrows c. unfold table_columns.
  induction Hrows as [|kv m data ms (Hn & Hr & p & Hp & Hc) _ IH].
  - cbn [fmap list_fmap union_list]. split; [by intros ?%elem_of_empty|].
    by intros (m & ?%elem_of_nil & _).
  - rewrite fmap_cons. cbn [union_list foldr]. rewrite elem_of_union, elem_of_list_to_set, IH, Hc.
    split.
    + intros [[->|Hin]|(m' & Hm' & Hcol)].
      * exists m. split; [left | by left].
      * exists m. split; [left | right; by exists p].
      * exists m'. split; [by right | done].
    + intros (m' & [->|Hm']%elem_of_cons & Hcol).
      * left. destruct Hcol as [->|(p' & Hp' & Hin)]; [by left|].
        right. rewrite Hp in Hp'. by injection Hp' as <-.
      * right. by exists m'.
Qed.
End table_facts.

(** ** [calculate] with full and with abbreviated names *)

Section rename_run.
Context {C : Chem}.
Implicit Types (requested : option (list string)) (e : normalized)
  (results : list (string * entry)) (ms : list Molecule).


(** The loop does not look at [self.molecule_set]. *)
Lemma calculate_loop_state a (molecule : Mol) todo
    (result : list (string * option Value)) key ms ms0 :
  calculate_loop a molecule todo result key ms =
  (outcome (calculate_loop a molecule todo result key ms0), ms,
   events (calculate_loop a molecule todo result key ms0)).
Proof.
  revert result key. induction todo as [|d todo IH]; intros result key; [done|].
  destruct (dict_get d self_properties) as [n|] eqn:Hd; [|by rewrite !loop_unknown].
  destruct (Descriptors d) as [f|] eqn:Hf.
  - rewrite !(loop_found _ _ _ n f) by done. unfold bind, emit. rewrite IH.
    by destruct (calculate_loop a molecule todo _ _ ms0) as [[? ?] ?].
  - destruct key as [k|].
    + rewrite !(loop_missing_bound _ _ _ n) by done. apply IH.
    + by rewrite !(loop_missing_unbound _ _ _ n).
Qed.

Lemma evaluate_state self (molecule : Mol) requested ms ms0 :
  _calculate_for_molecule self molecule requested ms =
  (outcome (_calculate_for_molecule self molecule requested ms0), ms,
   events (_calculate_for_molecule self molecule requested ms0)).
Proof.
  unfold _calculate_for_molecule, bind, emit.
  rewrite (calculate_loop_state _ _ _ _ _ ms ms0).
  by destruct (calculate_loop _ molecule _ _ _ ms0) as [[[?|?] ?] ?].
Qed.





End rename_run.

(** * The claims *)

Section evaluator_claims.
Context {C : Chem}.

(** C10.  In the loop of [_calculate_for_molecule] the local [key] is
    assigned only where the descriptor function is found (there the loop
    goes on with [key] bound to the display name of the current
    descriptor).  Where the function is missing, [None] is written under
    the display name an earlier iteration left in [key], which stays as it
    is; and if [key] is still unbound, as it is when the first requested
    key has no function, the evaluation ends with an unhandled
    [UnboundLocalError] instead of recording [None]. *)
Theorem C10_key_bound_only_when_found
    (a : bool) (molecule : Mol) (d : string) (n : names) (todo : list string)
    (result : list (string * option Value)) (ms : list Molecule) :
  dict_get d self_properties = Some n →
  (∀ f key, Descriptors d = Some f →
     calculate_loop a molecule (d :: todo) result key ms =
     bind (emit (Compute d molecule))
       (λ _, calculate_loop a molecule todo
               (dict_set (display a n) (f molecule) result) (Some (display a n))) ms) ∧
  (Descriptors d = None →
     (∀ k, calculate_loop a molecule (d :: todo) result (Some k) ms =
           calculate_loop a molecule todo (dict_set k None result) (Some k) ms) ∧
     calculate_loop a molecule (d :: todo) result None ms =
       (inl (UnboundLocalError "key"), ms, []) ∧
     (∀ self, _calculate_for_molecule self molecule (Some (d :: todo)) ms =
              (inl (UnboundLocalError "key"), ms, [Evaluate molecule]))).
Proof.
  intros Hd. split; [intros f key Hf; by apply loop_found|].
  intros Hf. split_and!.
  - intros k. by apply (loop_missing_bound _ _ _ n).
  - by apply (loop_missing_unbound _ _ _ n).
  - intros self. unfold _calculate_for_molecule, bind, emit.
    cbn [properties_to_calculate]. by rewrite (loop_missing_unbound _ _ _ n).
Qed.


(** C4, amended.  For every structure and every requested-keys argument
    whose keys to calculate (the list itself when it is not empty, all
    registry keys when it is [None] or empty) are registry keys with a
    descriptor function, [_calculate_for_molecule] returns a mapping whose
    key set is exactly the set of display names of those keys. *)
Theorem C4_key_set_is_display_names
    (self : Calculator) (molecule : Mol) (requested : option (list string))
    (ms : list Molecule) :
  Forall supported (properties_to_calculate requested) →
  ∃ r t,
    _calculate_for_molecule self molecule requested ms = (inr r, ms, t) ∧
    list_to_set (dict_keys r) =@{gset string}
      list_to_set (display_names (self_abbrev self) (properties_to_calculate requested)) ∧
    NoDup (dict_keys r).
Proof.
  intros Hall.
  destruct (calculate_loop_keys (self_abbrev self) molecule
              (properties_to_calculate requested) [] None ms Hall)
    as (r & t & Hr & Hkeys & Hnd).
  exists r, (Evaluate molecule :: t). split_and!.
  - unfold _calculate_for_molecule, bind, emit. by rewrite Hr.
  - apply set_eq. intros x. rewrite !elem_of_list_to_set, Hkeys.
    cbn. rewrite elem_of_nil. tauto.
  - apply Hnd. constructor.
Qed.
End evaluator_claims.

Lemma toy_supported (d : string) :
  is_Some (dict_get d self_properties) → @supported (toy [] []) d.
Proof. intros Hd. split; [done|]. by eexists. Qed.

Lemma toy_computable (d : string) :
  is_Some (dict_get d self_properties) → @computable (toy [] []) d.
Proof.
  intros Hd. split; [done|]. eexists. split; [reflexivity|].
  intros m. by eexists.
Qed.

Lemma C10_witness :
  @_calculate_for_molecule (toy ["MolWt"] [])
    (toy_calculator _ (InDict [("ethanol", "CCO")]) true) "CCO"
    (Some ["MolWt"; "TPSA"]) [] =
  (inl (UnboundLocalError "key"), [], [@Evaluate (toy ["MolWt"] []) "CCO"]).
Proof.
  refine (proj2 (proj2 (proj2
    (@C10_key_bound_only_when_found (toy ["MolWt"] []) true "CCO" "MolWt"
       {| full := "Molecular Weight"; abbrev := "MW" |} ["TPSA"] [] [] _) _)) _).
  - reflexivity.
  - reflexivity.
Defined.

Lemma C4_witness :
  ∃ r t,
    @_calculate_for_molecule (toy [] [])
      (toy_calculator _ (InDict []) true) "CCO" (Some ["MolWt"; "TPSA"]) [] =
      (inr r, [], t) ∧
    list_to_set (dict_keys r) =@{gset string}
      list_to_set (@display_names true ["MolWt"; "TPSA"]) ∧
    NoDup (dict_keys r).
Proof.
  apply (@C4_key_set_is_display_names (toy [] [])
           (toy_calculator _ (InDict []) true) "CCO" (Some ["MolWt"; "TPSA"]) []).
  repeat constructor; apply toy_supported; by eexists.
Defined.

(** C4 as stated fails: the empty list of requested keys is a valid subset
    of the registry whose display names are no names at all, and the mapping
    returned for it has the ten display names of the whole registry. *)
Lemma C4_counterexample :
  outcome (@_calculate_for_molecule (toy [] [])
             (toy_calculator _ (InDict []) true) "CCO" (Some []) []) =
  inr [("MW", Some 3); ("LogP", Some 3); ("HBD", Some 3); ("HBA", Some 3);
       ("RB", Some 3); ("AR", Some 3); ("TPSA", Some 3); ("HAC", Some 3);
       ("FSP3", Some 3); ("ASA", Some 3)] ∧
  @display_names true [] = [].
Proof. split; reflexivity. Qed.

(** C2, on the code.  With a backend that lacks the function of the first
    requested key, [calculate] ends with [UnboundLocalError] instead of
    recording [None]; with one that lacks the function of a later key,
    [None] overwrites the value of the key before it and the key itself is
    not recorded; and with a function that raises, [None] is recorded for
    the key but the construction of the [Molecule] then refuses the mapping
    and [calculate] ends with a validation error.  The last is what a list
    item on which every descriptor function raises meets (a plain string,
    which the annotation of [input_data] allows as an item). *)
Theorem C2_descriptor_failure_is_not_isolated :
  outcome (@calculate (toy ["MolWt"] [])
             (toy_calculator _ (InDict [("ethanol", "CCO")]) true) false None []) =
    inl (UnboundLocalError "key") ∧
  outcome (@_calculate_for_molecule (toy ["MolLogP"] [])
             (toy_calculator _ (InDict [("ethanol", "CCO")]) true) "CCO"
             (Some ["MolWt"; "MolLogP"; "TPSA"]) []) =
    inr [("MW", None); ("TPSA", Some 3)] ∧
  outcome (@_calculate_for_molecule (toy [] ["MolLogP"])
             (toy_calculator _ (InDict [("ethanol", "CCO")]) true) "CCO"
             (Some ["MolWt"; "MolLogP"; "TPSA"]) []) =
    inr [("MW", Some 3); ("LogP", None); ("TPSA", Some 3)] ∧
  outcome (@calculate (toy [] ["MolLogP"])
             (toy_calculator _ (InDict [("ethanol", "CCO")]) true) false
             (Some ["MolWt"; "MolLogP"; "TPSA"]) []) =
    inl ValidationError ∧
  outcome (@calculate (toy [] (dict_keys self_properties))
             (toy_calculator _ (InList [@ItemObj (toy [] (dict_keys self_properties)) "CCO"])
                true) false None []) =
    inl ValidationError.
Proof. split_and!; reflexivity. Qed.

Lemma filter_not_elem_of_nil (l : list string) :
  filter (λ n, n ∉ @nil string) l = l.
Proof.
  induction l as [|x l IH]; [done|].
  rewrite filter_cons_True by apply not_elem_of_nil. by rewrite IH.
Qed.

Lemma dict_get_in_keys {A} (k : string) (d : list (string * A)) :
  k ∈ dict_keys d → is_Some (dict_get k d).
Proof.
  unfold dict_keys. induction d as [|[k' v'] d IH]; cbn [dict_get fmap list_fmap fst].
  - by intros ?%elem_of_nil.
  - intros [->|Hin]%elem_of_cons.
    + rewrite decide_True by done. by eexists.
    + case_decide; [by eexists | by apply IH].
Qed.

Section calculate_facts.
Context {C : Chem}.
Implicit Types (self : Calculator) (requested : option (list string))
  (ms : list Molecule).

(** An unknown key after supported ones is what the loop fails on. *)
Lemma loop_status_unknown pre bad post bound :
  Forall supported pre → dict_get bad self_properties = None →
  loop_status (pre ++ bad :: post) bound = Some (KeyError bad).
Proof.
  intros Hpre Hbad. revert bound.
  induction Hpre as [|d pre [[n Hd] [f Hf]] _ IH]; intros bound.
  - cbn [app loop_status]. by rewrite Hbad.
  - cbn [app loop_status]. rewrite Hd, Hf. apply IH.
Qed.

Lemma record_of_names (recs : list Molecule) (es : list normalized) :
  Forall2 record_of recs es →
  name <$> recs = ne_name <$> es ∧ Forall (λ m, is_Some (properties m)) recs.
Proof.
  induction 1 as [|m e recs es (Hn & _ & Hp) _ [IH1 IH2]]; [done|].
  rewrite !fmap_cons, Hn, IH1. split; [done | by constructor].
Qed.

(** With computable keys [calculate] goes through its input. *)
Lemma calculate_results_run self requested ms :
  Forall computable (properties_to_calculate requested) →
  ∃ results recs t,
    calculate_results self requested ms = (inr results, ms ++ recs, t) ∧
    dict_keys results = first_occurrences (ne_name <$> normalize (self_input_data self)) ∧
    Forall2 record_of recs
      (filter (λ e, evaluable e) (normalize (self_input_data self))) ∧
    (∀ n en, dict_get n results = Some en →
       ∃ e, e ∈ normalize (self_input_data self) ∧ ne_name e = n ∧
            entry_smiles en = ne_identifier e ∧
            (is_Some (entry_properties en) ↔ is_Some (ne_molecule e))).
Proof.
  intros Hall. rewrite calculate_results_normalize.
  destruct (run_total self requested (normalize (self_input_data self)) [] ms Hall
              (normalize_wf _)) as (results & ms' & t & Hrun).
  destruct (run_inv_inr _ _ _ _ _ _ _ _ Hrun) as (Hkeys & (recs & -> & Hrecs) & Hget).
  exists results, recs, t. split_and!; [done | | done |].
  - rewrite Hkeys. cbn [dict_keys fmap list_fmap app].
    apply filter_not_elem_of_nil.
  - intros n en [Hn|?]%Hget; [done | done].
Qed.
(** The mapping with which an entry is processed changes only the mapping
    that is returned. *)
Lemma entry_results self requested e results1 results2 ms :
  same_effect (calculate_entry self requested e results1 ms)
              (calculate_entry self requested e results2 ms).
Proof.
  unfold same_effect, calculate_entry. destruct (ne_molecule e) as [molecule|].
  - unfold bind.
    destruct (_calculate_for_molecule self molecule requested ms) as [[[err|cp] ms1] t1];
      [done|].
    unfold lift, append, ret.
    destruct (Molecule_new (ne_name e) (ne_identifier e) (Some cp)) as [err|m];
      unfold outcome, molecule_set, events; cbn; [done|].
    split_and!; [done | done |]. by intros err; split.
  - unfold ret, outcome, molecule_set, events. cbn.
    split_and!; [done | done |]. by intros err; split.
Qed.

Lemma run_results self requested es results1 results2 ms :
  same_effect (for_each (calculate_entry self requested) es results1 ms)
              (for_each (calculate_entry self requested) es results2 ms).
Proof.
  revert results1 results2 ms. induction es as [|e es IH]; intros results1 results2 ms.
  { unfold for_each, ret, same_effect, outcome, molecule_set, events. cbn.
    split_and!; [done | done |]. by intros err; split. }
  cbn [for_each]. unfold bind.
  pose proof (entry_results self requested e results1 results2 ms) as He.
  destruct (calculate_entry self requested e results1 ms) as [[[err1|r1] ms1] t1],
           (calculate_entry self requested e results2 ms) as [[[err2|r2] ms2] t2];
    destruct He as (Hms & Ht & Hout);
    unfold outcome, molecule_set, events in Hms, Ht, Hout; cbn [fst snd] in Hms, Ht, Hout;
    subst ms2 t2.
  - assert (err2 = err1) as -> by (by injection (proj1 (Hout err1) eq_refl)).
    unfold same_effect, outcome, molecule_set, events.
    cbn. split_and!; [done | done |]. by intros err.
  - discriminate (proj1 (Hout err1) eq_refl).
  - discriminate (proj2 (Hout err2) eq_refl).
  - pose proof (IH r1 r2 ms1) as Hrest.
    destruct (for_each _ es r1 ms1) as [[o1 ms1'] t1'],
             (for_each _ es r2 ms1) as [[o2 ms2'] t2'].
    destruct Hrest as (Hms & Ht & Hout').
    unfold same_effect, outcome, molecule_set, events in *. cbn [fst snd] in *.
    by subst ms2' t2'.
Qed.

(** An entry that does not reach the evaluator, among the entries of a
    run: the run does what the run without it does, but for the mapping
    it returns. *)
Lemma run_skips self requested pre e post results ms :
  ne_molecule e = None →
  same_effect (for_each (calculate_entry self requested) (pre ++ e :: post) results ms)
              (for_each (calculate_entry self requested) (pre ++ post) results ms).
Proof.
  intros He. rewrite !for_each_app. unfold bind.
  destruct (for_each _ pre results ms) as [[[err|r1] ms1] t1].
  { unfold same_effect. split_and!; [done | done |]. by intros err'. }
  cbn [for_each]. unfold bind. rewrite (entry_not_evaluable _ _ _ _ _ He).
  pose proof (run_results self requested post
    (dict_set (ne_name e)
       {| entry_smiles := ne_identifier e; entry_properties := None |} r1) r1 ms1) as Hrest.
  destruct (for_each _ post (dict_set _ _ r1) ms1) as [[o1 ms1'] t1'],
           (for_each _ post r1 ms1) as [[o2 ms2'] t2'].
  destruct Hrest as (Hms & Ht & Hout).
  unfold same_effect, outcome, molecule_set, events in *. cbn [fst snd app] in *.
  by subst ms2' t2'.
Qed.

(** [calculate] on two inputs on which [calculate_results] has the same
    effect has the same effect; with [as_df] true it has the same outcome,
    the table being made from [self.molecule_set]. *)
Lemma calculate_same_effect self1 self2 as_df requested ms :
  same_effect (calculate_results self1 requested ms) (calculate_results self2 requested ms) →
  same_effect (calculate self1 as_df requested ms) (calculate self2 as_df requested ms).
Proof.
  unfold calculate, bind.
  destruct (calculate_results self1 requested ms) as [[[err1|r1] ms1] t1],
           (calculate_results self2 requested ms) as [[[err2|r2] ms2] t2];
    intros (Hms & Ht & Hout);
    unfold outcome, molecule_set, events in Hms, Ht, Hout; cbn [fst snd] in Hms, Ht, Hout;
    subst ms2 t2.
  - assert (err2 = err1) as -> by (by injection (proj1 (Hout err1) eq_refl)).
    unfold same_effect. split_and!; [done | done |]. by intros err.
  - discriminate (proj1 (Hout err1) eq_refl).
  - discriminate (proj2 (Hout err2) eq_refl).
  - destruct as_df.
    + unfold to_dataframe, bind, get_molecule_set, lift, ret.
      destruct (to_dataframe_data ms1 []);
        unfold same_effect, outcome, molecule_set, events; cbn;
        (split_and!; [done | done |]); by intros err.
    + unfold ret, same_effect, outcome, molecule_set, events. cbn.
      split_and!; [done | done |]. by intros err; split.
Qed.
End calculate_facts.

Section calculate_claims.
Context {C : Chem}.

(** C1, amended.  When the requested keys contain a key that is not in
    the registry, after keys that are in the registry and have a
    descriptor function: if some input entry reaches the evaluator (an
    identifier that parses, or an object), [calculate] raises the
    [KeyError] naming that key and leaves [self.molecule_set] as it was,
    the error leaving the call at the first such entry, before any
    Structure Record is appended; and if no input entry reaches the
    evaluator, [calculate] does not raise and returns the entries with
    null properties. *)
Theorem C1_unknown_key_raises_at_first_evaluation
    (self : Calculator) (as_df : bool) (pre : list string) (bad : string)
    (post : list string) (ms : list Molecule) :
  dict_get bad self_properties = None →
  Forall supported pre →
  (Exists (λ e, is_Some (ne_molecule e)) (normalize (self_input_data self)) →
   ∃ t, calculate self as_df (Some (pre ++ bad :: post)) ms =
        (inl (KeyError bad), ms, t)) ∧
  (Forall (λ e, ne_molecule e = None) (normalize (self_input_data self)) →
   calculate self false (Some (pre ++ bad :: post)) ms =
   (inr (RResults
           (foldl (λ r e, dict_set (ne_name e)
                            {| entry_smiles := ne_identifier e;
                               entry_properties := None |} r)
              [] (normalize (self_input_data self)))), ms, [])).
Proof.
  intros Hbad Hpre. split.
  - intros Hex.
    assert (loop_status (properties_to_calculate (Some (pre ++ bad :: post))) false =
            Some (KeyError bad)) as Hst.
    { replace (properties_to_calculate (Some (pre ++ bad :: post)))
        with (pre ++ bad :: post) by (by destruct pre).
      by apply loop_status_unknown. }
    destruct (run_fails self _ _ [] ms _ Hst Hex) as [t Ht].
    exists t. unfold calculate. apply bind_inl. by rewrite calculate_results_normalize.
  - intros Hnone. unfold calculate, bind.
    rewrite calculate_results_normalize.
    by rewrite (run_not_evaluable _ _ _ _ _ Hnone).
Qed.

(** C3.  An input entry whose identifier does not parse (a pair of the
    dictionary given as input, or of a dictionary in the list given as
    input): [calculate] records under its name the identifier and
    [properties] equal to [None], so that the mapping it returns has this
    entry under the name, unless an entry after it has the same name and
    has replaced it; and [calculate] goes on with the entries after it,
    without an exception and without handing anything to the evaluator
    for it: the call raises what the call on the input without this
    entry raises, if anything, and appends the same Structure Records and
    passes the same structures and descriptor calls to the backend. *)
Theorem C3_unparsed_identifier_is_recorded_and_skipped
    (inp inp' : input) (a as_df : bool) (requested : option (list string))
    (ms : list Molecule) (pre post : list normalized) (n s : string) :
  MolFromSmiles s = None →
  normalize inp = pre ++ normalize_named (n, s) :: post →
  normalize inp' = pre ++ post →
  (∀ results,
     outcome (calculate {| self_input_data := inp; self_abbrev := a |}
                false requested ms) = inr (RResults results) →
     n ∈ dict_keys results ∧
     (dict_get n results =
        Some {| entry_smiles := Some s; entry_properties := None |} ∨
      ∃ e, e ∈ post ∧ ne_name e = n)) ∧
  events (calculate {| self_input_data := inp; self_abbrev := a |} as_df requested ms) =
    events (calculate {| self_input_data := inp'; self_abbrev := a |} as_df requested ms) ∧
  molecule_set (calculate {| self_input_data := inp; self_abbrev := a |} as_df requested ms) =
    molecule_set (calculate {| self_input_data := inp'; self_abbrev := a |} as_df requested ms) ∧
  (∀ err,
     outcome (calculate {| self_input_data := inp; self_abbrev := a |}
                as_df requested ms) = inl err ↔
     outcome (calculate {| self_input_data := inp'; self_abbrev := a |}
                as_df requested ms) = inl err).
Proof.
  intros Hs Hinp Hinp'. split.
  - intros results Hout.
    destruct (calculate _ false requested ms) as [[o ms'] t] eqn:Hcall.
    unfold outcome in Hout. cbn [fst] in Hout. subst o.
    unfold calculate in Hcall.
    apply bind_inv_inr in Hcall as (r & ms1 & t1 & t2 & Hres & Hret & ->).
    unfold ret in Hret. injection Hret as -> -> <-.
    rewrite calculate_results_normalize in Hres. cbn [self_input_data] in Hres.
    rewrite Hinp, for_each_app in Hres.
    apply bind_inv_inr in Hres as (r1 & ms2 & t3 & t4 & _ & Hrest & ->).
    cbn [for_each] in Hrest.
    apply bind_inv_inr in Hrest as (r2 & ms3 & t5 & t6 & He & Hpost & ->).
    rewrite entry_not_evaluable in He by done. injection He as <- <- <-.
    apply run_inv_inr in Hpost as (Hkeys & _ & Hget).
    cbn [normalize_named ne_name ne_identifier fst snd] in Hkeys, Hget.
    assert (n ∈ dict_keys results) as Hin.
    { rewrite Hkeys. apply elem_of_app. left. apply elem_of_dict_keys_set. by left. }
    split; [done|].
    destruct (dict_get_in_keys _ _ Hin) as [en Hen].
    destruct (Hget n en Hen) as [Hold|(e & He & Hn & _)].
    + left. rewrite Hen. rewrite dict_get_set, decide_True in Hold by done. done.
    + right. by exists e.
  - destruct (calculate_same_effect
                {| self_input_data := inp; self_abbrev := a |}
                {| self_input_data := inp'; self_abbrev := a |} as_df requested ms)
      as (Hms & Ht & Hout); [|done].
    rewrite !calculate_results_normalize. cbn [self_input_data]. rewrite Hinp, Hinp'.
    change (calculate_entry {| self_input_data := inp'; self_abbrev := a |})
      with (calculate_entry {| self_input_data := inp; self_abbrev := a |}).
    by apply run_skips.
Qed.

(** C5.  A call of [calculate] that ends with the [KeyError] of an
    unknown key leaves [self.molecule_set] as it was, so every later call
    does what it would have done without the failed one. *)
Theorem C5_failed_call_leaves_molecule_set
    (self : Calculator) (as_df : bool) (requested : option (list string))
    (ms ms' : list Molecule) (k : string) (t : list event) :
  calculate self as_df requested ms = (inl (KeyError k), ms', t) →
  ms' = ms ∧
  ∀ as_df' requested',
    calculate self as_df' requested' ms' = calculate self as_df' requested' ms.
Proof.
  intros Hcall. assert (ms' = ms) as ->; [|done].
  unfold calculate in Hcall.
  apply bind_inv_inl in Hcall as [Hres|(results & ms1 & t1 & t2 & Hres & Hrest & ->)].
  - rewrite calculate_results_normalize in Hres.
    by apply run_inv_inl in Hres as [[_ ->]|[_ ?]].
  - destruct as_df; [|done].
    apply bind_inv_inl in Hrest as [Hdf|(data & ms2 & t3 & t4 & _ & Hret & _)]; [|done].
    unfold to_dataframe, bind, get_molecule_set, lift in Hdf.
    destruct (to_dataframe_data ms1 []) as [err|data] eqn:Hdata; [|done].
    apply to_dataframe_data_inl in Hdata. by simplify_eq.
Qed.

(** C6, amended.  With [as_df] false and requested keys that the backend
    computes, [calculate] returns the mapping built in this call, whose
    entries hold the identifier and the properties of an input entry of
    that name, and appends to [self.molecule_set] one Structure Record for
    every input entry that parsed or was an object, in input order, and
    none for an entry whose identifier did not parse.  The records stay:
    a further call appends its records after them. *)
Theorem C6_results_and_structure_records
    (self : Calculator) (requested : option (list string)) (ms : list Molecule) :
  Forall computable (properties_to_calculate requested) →
  ∃ results recs t,
    calculate self false requested ms = (inr (RResults results), ms ++ recs, t) ∧
    Forall2 record_of recs
      (filter (λ e, evaluable e) (normalize (self_input_data self))) ∧
    (∀ n en, dict_get n results = Some en →
       ∃ e, e ∈ normalize (self_input_data self) ∧ ne_name e = n ∧
            entry_smiles en = ne_identifier e ∧
            (is_Some (entry_properties en) ↔ is_Some (ne_molecule e))) ∧
    ∃ results' recs' t',
      calculate self false requested (ms ++ recs) =
        (inr (RResults results'), ms ++ recs ++ recs', t') ∧
      Forall2 record_of recs'
        (filter (λ e, evaluable e) (normalize (self_input_data self))).
Proof.
  intros Hall.
  destruct (calculate_results_run self requested ms Hall)
    as (results & recs & t & Hrun & _ & Hrecs & Hget).
  destruct (calculate_results_run self requested (ms ++ recs) Hall)
    as (results' & recs' & t' & Hrun' & _ & Hrecs' & _).
  exists results, recs, (t ++ []). split_and!; [|done|done|].
  - unfold calculate. by rewrite (bind_inr _ _ _ _ _ _ Hrun).
  - exists results', recs', (t' ++ []). split; [|done].
    unfold calculate. rewrite (bind_inr _ _ _ _ _ _ Hrun').
    by rewrite (assoc_L (++)).
Qed.

(** C7, amended.  A call of [calculate] with [as_df] true that returns,
    when the accumulated Structure Records have names that differ from
    each other: what it returns is the table, with exactly one row for
    each accumulated record, in their order, keyed by the name of the
    record and made of its properties and its identifier; the columns of
    the table are the display names of the properties of all these
    records together and the identifier column ['smiles'].  The
    accumulated records are the earlier ones and one for each input entry
    that parsed or was an object: an entry whose identifier did not parse
    has no record and no row. *)
Theorem C7_one_row_per_structure_record
    (self : Calculator) (requested : option (list string)) (ms ms' : list Molecule)
    (rv : retval) (t : list event) :
  calculate self true requested ms = (inr rv, ms', t) →
  NoDup (name <$> ms') →
  ∃ data recs,
    rv = RTable data ∧
    ms' = ms ++ recs ∧
    Forall2 record_of recs
      (filter (λ e, evaluable e) (normalize (self_input_data self))) ∧
    Forall2 (λ kv m, kv.1 = name m ∧ row m = inr kv.2) data ms' ∧
    ∀ c, c ∈ table_columns data ↔
         ∃ m, m ∈ ms' ∧
              (c = "smiles" ∨ ∃ p, properties m = Some p ∧ c ∈ dict_keys p).
Proof.
  intros Hcall Hnd. unfold calculate in Hcall.
  apply bind_inv_inr in Hcall as (results & ms1 & t1 & t2 & Hres & Hrest & ->).
  rewrite calculate_results_normalize in Hres.
  apply run_inv_inr in Hres as (_ & (recs & -> & Hrecs) & _).
  unfold to_dataframe, bind, get_molecule_set, lift, ret in Hrest.
  destruct (to_dataframe_data (ms ++ recs) []) as [err|data] eqn:Hdata; [done|].
  injection Hrest as <- <- _.
  destruct (to_dataframe_rows (ms ++ recs) [] (to_dataframe_data_inr _ _ _ Hdata))
    as (rows & Hrows & Hall); [done|].
  rewrite Hdata in Hrows. injection Hrows as ->. cbn [app].
  exists rows, recs. split_and!; [done | done | done | |].
  - eapply Forall2_impl; [exact Hall|]. by intros kv m (? & ? & _).
  - by apply table_columns_rows.
Qed.

(** C8.  For an input of any of the shapes (a list of dictionaries and
    objects, a dictionary, a single object), what a call of [calculate]
    with [as_df] false returns is a mapping with exactly one entry for
    each distinct name of the input, the names in the order of their
    first occurrence in the input; the name of an object is its string
    representation. *)
Theorem C8_one_entry_per_name_in_input_order
    (self : Calculator) (requested : option (list string)) (ms ms' : list Molecule)
    (rv : retval) (t : list event) :
  calculate self false requested ms = (inr rv, ms', t) →
  ∃ results,
    rv = RResults results ∧
    dict_keys results =
      first_occurrences (ne_name <$> normalize (self_input_data self)) ∧
    NoDup (dict_keys results) ∧
    dict_keys results `sublist_of` (ne_name <$> normalize (self_input_data self)) ∧
    (∀ n, n ∈ dict_keys results ↔ n ∈ ne_name <$> normalize (self_input_data self)) ∧
    (∀ molecule, self_input_data self = InObj molecule →
       dict_keys results = [str molecule]).
Proof.
  intros Hcall. unfold calculate in Hcall.
  apply bind_inv_inr in Hcall as (results & ms1 & t1 & t2 & Hres & Hret & ->).
  unfold ret in Hret. injection Hret as <- _ _.
  rewrite calculate_results_normalize in Hres.
  apply run_inv_inr in Hres as (Hkeys & _ & _).
  cbn [dict_keys fmap list_fmap app] in Hkeys. rewrite filter_not_elem_of_nil in Hkeys.
  exists results. split_and!.
  - done.
  - done.
  - rewrite Hkeys. apply NoDup_first_occurrences.
  - rewrite Hkeys. apply first_occurrences_sublist.
  - intros n. rewrite Hkeys. apply elem_of_first_occurrences.
  - intros molecule Hinp. rewrite Hkeys, Hinp. done.
Qed.
End calculate_claims.

(** ** The claims on the small backend *)

Lemma C1_witness :
  ∃ t,
    @calculate (toy [] [])
      (toy_calculator _ (InDict [("bad", "not_a_real_molecule!!"); ("ethanol", "CCO")]) true)
      false (Some (["MolWt"] ++ "NoSuchKey" :: ["TPSA"])) [] =
    (inl (KeyError "NoSuchKey"), [], t).
Proof.
  apply (@C1_unknown_key_raises_at_first_evaluation (toy [] [])).
  - reflexivity.
  - repeat constructor; apply toy_supported; by eexists.
  - apply Exists_cons_tl, Exists_cons_hd. by eexists.
Defined.

(** C1 as stated fails: with a requested key that is not in the registry,
    an input whose only identifier does not parse is processed to the end
    and a result is returned; and with a structure that parses, the
    descriptors of the keys listed before the unknown one are computed for
    it before the error is raised. *)
Lemma C1_counterexample :
  dict_get "NoSuchKey" self_properties = None ∧
  @calculate (toy [] [])
    (toy_calculator _ (InDict [("bad", "not_a_real_molecule!!")]) true)
    false (Some ["NoSuchKey"]) [] =
  (inr (RResults [("bad", {| entry_smiles := Some "not_a_real_molecule!!";
                             entry_properties := None |})]), [], []) ∧
  @calculate (toy [] [])
    (toy_calculator _ (InDict [("ethanol", "CCO")]) true)
    false (Some ["MolWt"; "NoSuchKey"]) [] =
  (inl (KeyError "NoSuchKey"), [],
   [@Evaluate (toy [] []) "CCO"; @Compute (toy [] []) "MolWt" "CCO"]).
Proof. split_and!; reflexivity. Qed.

Lemma C3_witness :
  ("bad" ∈ dict_keys
     [("ethanol", @Build_entry (toy [] []) (Some "CCO") (Some [("MW", Some 3)]));
      ("bad", @Build_entry (toy [] []) (Some "not_a_real_molecule!!") None);
      ("<Mol c1ccccc1>", @Build_entry (toy [] []) None (Some [("MW", Some 8)]))] ∧
   (dict_get "bad"
      [("ethanol", @Build_entry (toy [] []) (Some "CCO") (Some [("MW", Some 3)]));
       ("bad", @Build_entry (toy [] []) (Some "not_a_real_molecule!!") None);
       ("<Mol c1ccccc1>", @Build_entry (toy [] []) None (Some [("MW", Some 8)]))] =
      Some (@Build_entry (toy [] []) (Some "not_a_real_molecule!!") None) ∨
    ∃ e, e ∈ [@normalize_object (toy [] []) "c1ccccc1"] ∧ ne_name e = "bad")) ∧
  events (@calculate (toy [] [])
            (toy_calculator _
               (InList [ItemDict [("ethanol", "CCO"); ("bad", "not_a_real_molecule!!")];
                        @ItemObj (toy [] []) "c1ccccc1"]) true)
            false (Some ["MolWt"]) []) =
  events (@calculate (toy [] [])
            (toy_calculator _
               (InList [ItemDict [("ethanol", "CCO")];
                        @ItemObj (toy [] []) "c1ccccc1"]) true)
            false (Some ["MolWt"]) []).
Proof.
  destruct (@C3_unparsed_identifier_is_recorded_and_skipped (toy [] [])
    (InList [ItemDict [("ethanol", "CCO"); ("bad", "not_a_real_molecule!!")];
             @ItemObj (toy [] []) "c1ccccc1"])
    (InList [ItemDict [("ethanol", "CCO")]; @ItemObj (toy [] []) "c1ccccc1"])
    true false (Some ["MolWt"]) []
    [@normalize_named (toy [] []) ("ethanol", "CCO")]
    [@normalize_object (toy [] []) "c1ccccc1"]
    "bad" "not_a_real_molecule!!" eq_refl eq_refl eq_refl) as (Hrec & Hev & _).
  split; [apply Hrec; reflexivity | exact Hev].
Defined.

Lemma C5_witness :
  @nil (@Molecule (toy [] [])) = [] ∧
  ∀ as_df' requested',
    @calculate (toy [] []) (toy_calculator _ (InDict [("ethanol", "CCO")]) true)
      as_df' requested' [] =
    @calculate (toy [] []) (toy_calculator _ (InDict [("ethanol", "CCO")]) true)
      as_df' requested' [].
Proof.
  apply (@C5_failed_call_leaves_molecule_set (toy [] [])
           (toy_calculator _ (InDict [("ethanol", "CCO")]) true) false
           (Some ["NoSuchKey"]) [] [] "NoSuchKey" [@Evaluate (toy [] []) "CCO"]).
  reflexivity.
Defined.

Lemma C6_witness :
  ∃ results recs t,
    @calculate (toy [] [])
      (toy_calculator _ (InDict [("ethanol", "CCO"); ("bad", "not_a_real_molecule!!")]) true)
      false (Some ["MolWt"]) [] = (inr (RResults results), [] ++ recs, t) ∧
    Forall2 record_of recs [@normalize_named (toy [] []) ("ethanol", "CCO")].
Proof.
  destruct (@C6_results_and_structure_records (toy [] [])
    (toy_calculator _ (InDict [("ethanol", "CCO"); ("bad", "not_a_real_molecule!!")]) true)
    (Some ["MolWt"]) []) as (results & recs & t & Hcall & Hrecs & _).
  - repeat constructor; apply toy_computable; by eexists.
  - by exists results, recs, t.
Defined.

(** C6 as stated fails: no Structure Record is made for an item whose
    identifier does not parse; [self.molecule_set] is still empty after the
    call. *)
Lemma C6_counterexample :
  @calculate (toy [] [])
    (toy_calculator _ (InDict [("bad", "not_a_real_molecule!!")]) true) false None [] =
  (inr (RResults [("bad", {| entry_smiles := Some "not_a_real_molecule!!";
                             entry_properties := None |})]), [], []).
Proof. reflexivity. Qed.

Lemma C7_witness :
  ∃ data recs,
    @RTable (toy [] [])
      [("old", [("TPSA", @CNum (toy [] []) 1); ("smiles", @CNone (toy [] []))]);
       ("ethanol", [("MW", @CNum (toy [] []) 3); ("smiles", @CStr (toy [] []) "CCO")])] = RTable data ∧
    [@Build_Molecule (toy [] []) "old" None (Some [("TPSA", 1)]);
     @Build_Molecule (toy [] []) "ethanol" (Some "CCO") (Some [("MW", 3)])] =
    [@Build_Molecule (toy [] []) "old" None (Some [("TPSA", 1)])] ++ recs ∧
    Forall2 record_of recs [@normalize_named (toy [] []) ("ethanol", "CCO")] ∧
    "TPSA" ∈ table_columns data ∧ "MW" ∈ table_columns data ∧
    "smiles" ∈ table_columns data.
Proof.
  destruct (@C7_one_row_per_structure_record (toy [] [])
    (toy_calculator _ (InDict [("ethanol", "CCO"); ("bad", "not_a_real_molecule!!")]) true)
    (Some ["MolWt"])
    [@Build_Molecule (toy [] []) "old" None (Some [("TPSA", 1)])]
    [@Build_Molecule (toy [] []) "old" None (Some [("TPSA", 1)]);
     @Build_Molecule (toy [] []) "ethanol" (Some "CCO") (Some [("MW", 3)])]
    (@RTable (toy [] [])
       [("old", [("TPSA", @CNum (toy [] []) 1); ("smiles", @CNone (toy [] []))]);
        ("ethanol", [("MW", @CNum (toy [] []) 3); ("smiles", @CStr (toy [] []) "CCO")])])
    [@Evaluate (toy [] []) "CCO"; @Compute (toy [] []) "MolWt" "CCO"])
    as (data & recs & Hrv & Hms & Hrecs & _ & Hcols).
  - reflexivity.
  - apply (bool_decide_unpack _). by vm_compute.
  - exists data, recs. split_and!; [done | done | done | | |]; apply Hcols.
    + exists (@Build_Molecule (toy [] []) "old" None (Some [("TPSA", 1)])).
      split; [left|]. right. eexists. split; [reflexivity|]. left.
    + exists (@Build_Molecule (toy [] []) "ethanol" (Some "CCO") (Some [("MW", 3)])).
      split; [right; left|]. right. eexists. split; [reflexivity|]. left.
    + exists (@Build_Molecule (toy [] []) "old" None (Some [("TPSA", 1)])).
      split; [left|]. by left.
Defined.

(** C7 as stated fails: an entry whose identifier does not parse has no
    row in the table; a record with null properties, were there one in
    [self.molecule_set], would make [to_dataframe] raise; and two
    accumulated records of the same name have one row together. *)
Lemma C7_counterexample :
  @calculate (toy [] [])
    (toy_calculator _ (InDict [("bad", "not_a_real_molecule!!")]) true) true None [] =
  (inr (RTable []), [], []) ∧
  @to_dataframe_data (toy [] [])
    [{| name := "bad"; smiles := Some "not_a_real_molecule!!"; properties := None |}] [] =
  inl TypeError ∧
  @to_dataframe_data (toy [] [])
    [@Build_Molecule (toy [] []) "ethanol" (Some "CCO") (Some [("MW", 3)]);
     @Build_Molecule (toy [] []) "ethanol" (Some "CCO") (Some [("MW", 3)])] [] =
  inr [("ethanol", [("MW", @CNum (toy [] []) 3); ("smiles", @CStr (toy [] []) "CCO")])].
Proof. split_and!; reflexivity. Qed.

Lemma C8_witness :
  ∃ results,
    @RResults (toy [] [])
      [("ethanol", @Build_entry (toy [] []) (Some "c1ccccc1") (Some [("MW", Some 8)]));
       ("bad", @Build_entry (toy [] []) (Some "not_a_real_molecule!!") None);
       ("<Mol c1ccccc1>", @Build_entry (toy [] []) None (Some [("MW", Some 8)]))] =
    RResults results ∧
    dict_keys results = ["ethanol"; "bad"; "<Mol c1ccccc1>"].
Proof.
  destruct (@C8_one_entry_per_name_in_input_order (toy [] [])
    (toy_calculator _
       (InList [ItemDict [("ethanol", "CCO"); ("bad", "not_a_real_molecule!!")];
                @ItemObj (toy [] []) "c1ccccc1";
                ItemDict [("ethanol", "c1ccccc1")]]) true)
    (Some ["MolWt"]) []
    [@Build_Molecule (toy [] []) "ethanol" (Some "CCO") (Some [("MW", 3)]);
     @Build_Molecule (toy [] []) "<Mol c1ccccc1>" None (Some [("MW", 8)]);
     @Build_Molecule (toy [] []) "ethanol" (Some "c1ccccc1") (Some [("MW", 8)])]
    (@RResults (toy [] [])
       [("ethanol", @Build_entry (toy [] []) (Some "c1ccccc1") (Some [("MW", Some 8)]));
        ("bad", @Build_entry (toy [] []) (Some "not_a_real_molecule!!") None);
        ("<Mol c1ccccc1>", @Build_entry (toy [] []) None (Some [("MW", Some 8)]))])
    [@Evaluate (toy [] []) "CCO"; @Compute (toy [] []) "MolWt" "CCO";
     @Evaluate (toy [] []) "c1ccccc1"; @Compute (toy [] []) "MolWt" "c1ccccc1";
     @Evaluate (toy [] []) "c1ccccc1"; @Compute (toy [] []) "MolWt" "c1ccccc1"])
    as (results & Hrv & Hkeys & _).
  - reflexivity.
  - by exists results.
Defined.

(** * Further properties of the evaluator *)

Section evaluator_exceptions.
Context {C : Chem}.
Implicit Types (todo pre post : list string) (bound : bool).

Lemma loop_status_bound_not_unbound todo v :
  loop_status todo true ≠ Some (UnboundLocalError v).
Proof.
  induction todo as [|d todo IH]; [done|]. cbn [loop_status].
  destruct (dict_get d self_properties); [|done].
  by destruct (Descriptors d).
Qed.

Lemma loop_status_KeyError todo bound k :
  loop_status todo bound = Some (KeyError k) ↔
  ∃ pre post, todo = pre ++ k :: post ∧
    dict_get k self_properties = None ∧
    Forall (λ d, is_Some (dict_get d self_properties)) pre ∧
    (bound = false → ∀ d pre', pre = d :: pre' → is_Some (Descriptors d)).
Proof.
  revert bound. induction todo as [|d todo IH]; intros bound.
  { split; [done|]. intros (pre & post & Heq & _). by destruct pre. }
  cbn [loop_status]. destruct (dict_get d self_properties) as [n|] eqn:Hd.
  - assert (loop_status todo true = Some (KeyError k) ↔
            ∃ pre post, d :: todo = pre ++ k :: post ∧
              dict_get k self_properties = None ∧
              Forall (λ d, is_Some (dict_get d self_properties)) pre) as Htail.
    { rewrite IH. split.
      - intros (pre & post & -> & Hk & Hpre & _). exists (d :: pre), post.
        split_and!; [done | done | constructor; eauto].
      - intros (pre & post & Heq & Hk & Hpre). destruct pre as [|d' pre].
        + injection Heq as -> _. congruence.
        + injection Heq as <- ->. apply Forall_cons in Hpre as [_ Hpre].
          exists pre, post. by split_and!. }
    destruct (Descriptors d) as [f|] eqn:Hf; [|destruct bound].
    + rewrite Htail. split.
      * intros (pre & post & Heq & Hk & Hpre). exists pre, post. split_and!; [done..|].
        intros _ d' pre' ->. injection Heq as <- _. by rewrite Hf.
      * intros (pre & post & Heq & Hk & Hpre & _). by exists pre, post.
    + rewrite Htail. split.
      * intros (pre & post & Heq & Hk & Hpre). exists pre, post. by split_and!.
      * intros (pre & post & Heq & Hk & Hpre & _). by exists pre, post.
    + split; [done|]. intros (pre & post & Heq & Hk & Hpre & Hfirst).
      destruct pre as [|d' pre].
      * injection Heq as -> _. congruence.
      * injection Heq as <- _. destruct (Hfirst eq_refl d pre eq_refl) as [? ?].
        congruence.
  - split.
    + intros [= <-]. exists [], todo. split_and!; [done | done | constructor | done].
    + intros (pre & post & Heq & Hk & Hpre & _). destruct pre as [|d' pre].
      * by injection Heq as -> _.
      * injection Heq as <- _. apply Forall_cons in Hpre as [[? ?] _]. congruence.
Qed.

Lemma loop_status_Unbound todo v :
  loop_status todo false = Some (UnboundLocalError v) ↔
  v = "key" ∧ ∃ d rest n, todo = d :: rest ∧
    dict_get d self_properties = Some n ∧ Descriptors d = None.
Proof.
  destruct todo as [|d todo]; cbn [loop_status].
  { split; [done|]. by intros (_ & d & rest & n & ? & _). }
  destruct (dict_get d self_properties) as [n|] eqn:Hd.
  - destruct (Descriptors d) as [f|] eqn:Hf.
    + split; [by intros ?%loop_status_bound_not_unbound|].
      intros (_ & d' & rest & n' & [= <- <-] & _ & ?). congruence.
    + split.
      * intros [= <-]. split; [done|]. by exists d, todo, n.
      * by intros (-> & _).
  - split; [done|]. intros (_ & d' & rest & n' & [= <- <-] & ? & _). congruence.
Qed.

Lemma loop_status_kinds todo bound err :
  loop_status todo bound = Some err →
  err = UnboundLocalError "key" ∨ ∃ k, err = KeyError k ∧ k ∈ todo.
Proof.
  revert bound. induction todo as [|d todo IH]; intros bound; [done|].
  cbn [loop_status].
  assert (∀ b, loop_status todo b = Some err →
            err = UnboundLocalError "key" ∨ ∃ k, err = KeyError k ∧ k ∈ d :: todo)
    as Htail.
  { intros b [?|(k & ? & ?)]%IH; [by left|]. right. exists k. split; [done | by right]. }
  destruct (dict_get d self_properties).
  - destruct (Descriptors d); [apply Htail|]. destruct bound; [apply Htail|].
    intros [= <-]. by left.
  - intros [= <-]. right. exists d. split; [done | left].
Qed.

(** The evaluator raises exactly what [loop_status] announces. *)
Lemma evaluate_outcome_inl self (molecule : Mol) requested ms err :
  outcome (_calculate_for_molecule self molecule requested ms) = inl err ↔
  loop_status (properties_to_calculate requested) false = Some err.
Proof.
  destruct (evaluate_status self molecule requested ms) as [t Ht].
  destruct (loop_status _ false) as [err'|].
  - rewrite Ht. unfold outcome. cbn. split; congruence.
  - destruct Ht as [r ->]. unfold outcome. cbn. split; congruence.
Qed.

(** X1.  Whether [_calculate_for_molecule] raises, and what, depends on
    the requested keys and on the backend only: not on the structure, not
    on the [abbrev] flag or the input of the calculator, and not on the
    Structure Records accumulated so far. *)
Theorem X1_evaluator_failure_independent_of_structure
    (self self' : Calculator) (molecule molecule' : Mol)
    (requested : option (list string)) (ms ms' : list Molecule) (err : exn) :
  outcome (_calculate_for_molecule self molecule requested ms) = inl err ↔
  outcome (_calculate_for_molecule self' molecule' requested ms') = inl err.
Proof. by rewrite !evaluate_outcome_inl. Qed.

(** X2.  [_calculate_for_molecule] raises the [KeyError] of [k] exactly
    when [k] is among the keys to calculate and not in the registry, every
    key before it is in the registry, and the first key, if it is not [k]
    itself, has a descriptor function. *)
Theorem X2_evaluator_KeyError_iff
    (self : Calculator) (molecule : Mol) (requested : option (list string))
    (ms : list Molecule) (k : string) :
  outcome (_calculate_for_molecule self molecule requested ms) = inl (KeyError k) ↔
  ∃ pre post, properties_to_calculate requested = pre ++ k :: post ∧
    dict_get k self_properties = None ∧
    Forall (λ d, is_Some (dict_get d self_properties)) pre ∧
    (∀ d pre', pre = d :: pre' → is_Some (Descriptors d)).
Proof.
  rewrite evaluate_outcome_inl, loop_status_KeyError. split.
  - intros (pre & post & ? & ? & ? & Hfirst). exists pre, post.
    split_and!; [done..|]. by apply Hfirst.
  - intros (pre & post & ? & ? & ? & Hfirst). exists pre, post.
    split_and!; [done..|]. by intros _.
Qed.

(** X3.  [_calculate_for_molecule] raises [UnboundLocalError] exactly when
    the first key to calculate is a registry key without a descriptor
    function; the unbound local is [key].  It raises nothing but this and
    the [KeyError] of a requested key. *)
Theorem X3_evaluator_UnboundLocalError_iff
    (self : Calculator) (molecule : Mol) (requested : option (list string))
    (ms : list Molecule) :
  (∀ v, outcome (_calculate_for_molecule self molecule requested ms) =
        inl (UnboundLocalError v) ↔
        v = "key" ∧ ∃ d rest n, properties_to_calculate requested = d :: rest ∧
          dict_get d self_properties = Some n ∧ Descriptors d = None) ∧
  (∀ err, outcome (_calculate_for_molecule self molecule requested ms) = inl err →
     err = UnboundLocalError "key" ∨
     ∃ k, err = KeyError k ∧ k ∈ properties_to_calculate requested).
Proof.
  split.
  - intros v. by rewrite evaluate_outcome_inl, loop_status_Unbound.
  - intros err Herr. by apply evaluate_outcome_inl, loop_status_kinds in Herr.
Qed.
End evaluator_exceptions.

(** * Further properties: what the evaluator returns *)

(** Distinct registry keys have distinct display names, full and
    abbreviated. *)
Lemma display_inj a d1 n1 d2 n2 :
  dict_get d1 self_properties = Some n1 →
  dict_get d2 self_properties = Some n2 →
  display a n1 = display a n2 → d1 = d2.
Proof.
  revert d1 n1.
  apply (registry_Forall (λ d1 n1,
    dict_get d2 self_properties = Some n2 → display a n1 = display a n2 → d1 = d2)).
  assert (Forall (λ kn1 : string * names, Forall (λ kn2 : string * names,
    display a kn1.2 = display a kn2.2 → kn1.1 = kn2.1) self_properties)
    self_properties) as Hall.
  { destruct a; apply (bool_decide_unpack _); by vm_compute. }
  eapply Forall_impl; [exact Hall|]. intros [d1 n1] H1 Hd2 Heq.
  apply dict_get_elem_of in Hd2.
  by apply (proj1 (Forall_forall _ _) H1 (d2, n2)).
Qed.

Section evaluator_results.
Context {C : Chem}.
Implicit Types (molecule : Mol) (todo : list string) (key : option string)
  (result : list (string * option Value)) (ms : list Molecule).

(** With supported keys the loop calls each descriptor function once, in
    the order of the request, and stores what each returns under the
    display name of its key: new names go last, and a later value for the
    same name replaces an earlier one. *)
Lemma calculate_loop_supported a molecule todo result key ms :
  Forall supported todo →
  ∃ r, calculate_loop a molecule todo result key ms =
         (inr r, ms, (λ d, Compute d molecule) <$> todo) ∧
    dict_keys r =
      dict_keys result ++
      filter (λ x, x ∉ dict_keys result) (first_occurrences (display_names a todo)) ∧
    ∀ d n f, dict_get d self_properties = Some n → Descriptors d = Some f →
      d ∈ todo ∨ dict_get (display a n) result = Some (f molecule) →
      dict_get (display a n) r = Some (f molecule).
Proof.
  intros Hall. revert result key.
  induction Hall as [|d0 todo [[n0 Hd0] [f0 Hf0]] _ IH]; intros result key.
  { exists result. split_and!; [done | |].
    - unfold display_names. cbn. by rewrite (right_id_L [] (++)).
    - by intros d n f _ _ [?%elem_of_nil|?]. }
  destruct (IH (dict_set (display a n0) (f0 molecule) result) (Some (display a n0)))
    as (r & Hr & Hkeys & Hvals).
  exists r. split_and!.
  - rewrite (loop_found _ _ _ n0 f0) by done. unfold bind, emit. by rewrite Hr.
  - rewrite Hkeys, dict_keys_set, (display_names_cons _ _ n0) by done.
    cbn [first_occurrences]. case_decide as Hin.
    + rewrite filter_cons_False by (by intros []).
      by rewrite filter_first_occurrences_ne by (by intros []).
    + rewrite filter_cons_True by done.
      by rewrite filter_not_elem_of_snoc, <- (assoc_L (++)).
  - intros d n f Hd Hf Hor. apply (Hvals d n f Hd Hf).
    rewrite dict_get_set.
    destruct Hor as [[->|Hin]%elem_of_cons|Hres].
    + right. rewrite decide_True; congruence.
    + by left.
    + right. case_decide as Hname; [|done].
      assert (d = d0) as -> by (by apply (display_inj a d n d0 n0)).
      congruence.
Qed.

(** X4.  With supported keys, the keys of the mapping that
    [_calculate_for_molecule] returns are the display names of the
    requested keys in the order in which they are first requested: a key
    requested twice has one entry, at the place of its first request. *)
Theorem X4_property_keys_in_request_order
    (self : Calculator) (molecule : Mol) (requested : option (list string))
    (ms : list Molecule) :
  Forall supported (properties_to_calculate requested) →
  ∃ r t, _calculate_for_molecule self molecule requested ms = (inr r, ms, t) ∧
    dict_keys r =
      first_occurrences
        (display_names (self_abbrev self) (properties_to_calculate requested)).
Proof.
  intros Hall.
  destruct (calculate_loop_supported (self_abbrev self) molecule
              (properties_to_calculate requested) [] None ms Hall)
    as (r & Hr & Hkeys & _).
  exists r, (Evaluate molecule :: ((λ d, Compute d molecule) <$>
                                    properties_to_calculate requested)).
  split.
  - unfold _calculate_for_molecule, bind, emit. by rewrite Hr.
  - rewrite Hkeys. cbn [dict_keys fmap list_fmap app]. apply filter_not_elem_of_nil.
Qed.

(** X5.  With supported keys, the value that [_calculate_for_molecule]
    returns under the display name of a requested key is what the
    descriptor function of that key returns for the structure, and null
    when that function raises. *)
Theorem X5_property_values_are_descriptor_values
    (self : Calculator) (molecule : Mol) (requested : option (list string))
    (ms : list Molecule) :
  Forall supported (properties_to_calculate requested) →
  ∃ r, outcome (_calculate_for_molecule self molecule requested ms) = inr r ∧
    ∀ d n f, d ∈ properties_to_calculate requested →
      dict_get d self_properties = Some n → Descriptors d = Some f →
      dict_get (display (self_abbrev self) n) r = Some (f molecule).
Proof.
  intros Hall.
  destruct (calculate_loop_supported (self_abbrev self) molecule
              (properties_to_calculate requested) [] None ms Hall)
    as (r & Hr & _ & Hvals).
  exists r. split.
  - unfold _calculate_for_molecule, bind, emit. by rewrite Hr.
  - intros d n f Hin Hd Hf. apply (Hvals d n f Hd Hf). by left.
Qed.

(** X6.  With supported keys, one evaluation of a structure calls the
    descriptor function of each requested key exactly once, in the order
    of the request (twice for a key requested twice), and nothing else of
    the backend. *)
Theorem X6_one_descriptor_call_per_requested_key
    (self : Calculator) (molecule : Mol) (requested : option (list string))
    (ms : list Molecule) :
  Forall supported (properties_to_calculate requested) →
  events (_calculate_for_molecule self molecule requested ms) =
  Evaluate molecule :: ((λ d, Compute d molecule) <$> properties_to_calculate requested).
Proof.
  intros Hall.
  destruct (calculate_loop_supported (self_abbrev self) molecule
              (properties_to_calculate requested) [] None ms Hall)
    as (r & Hr & _ & _).
  unfold _calculate_for_molecule, bind, emit. by rewrite Hr.
Qed.
End evaluator_results.

Lemma X4_witness :
  ∃ r t,
    @_calculate_for_molecule (toy [] []) (toy_calculator _ (InDict []) true) "CCO"
      (Some ["TPSA"; "MolWt"; "TPSA"]) [] = (inr r, [], t) ∧
    dict_keys r = ["TPSA"; "MW"].
Proof.
  apply (@X4_property_keys_in_request_order (toy [] [])
           (toy_calculator _ (InDict []) true) "CCO" (Some ["TPSA"; "MolWt"; "TPSA"]) []).
  repeat constructor; apply toy_supported; by eexists.
Defined.

Lemma X5_witness :
  ∃ r,
    outcome (@_calculate_for_molecule (toy [] ["MolLogP"])
               (toy_calculator _ (InDict []) true) "CCO"
               (Some ["MolWt"; "MolLogP"]) []) = inr r ∧
    ∀ d n f, d ∈ ["MolWt"; "MolLogP"] →
      dict_get d self_properties = Some n →
      @Descriptors (toy [] ["MolLogP"]) d = Some f →
      dict_get (display true n) r = Some (f "CCO").
Proof.
  apply (@X5_property_values_are_descriptor_values (toy [] ["MolLogP"])
           (toy_calculator _ (InDict []) true) "CCO" (Some ["MolWt"; "MolLogP"]) []).
  repeat constructor; by eexists.
Defined.

Lemma X6_witness :
  events (@_calculate_for_molecule (toy [] [])
            (toy_calculator _ (InDict []) true) "CCO"
            (Some ["TPSA"; "MolWt"; "TPSA"]) []) =
  [@Evaluate (toy [] []) "CCO"; @Compute (toy [] []) "TPSA" "CCO";
   @Compute (toy [] []) "MolWt" "CCO"; @Compute (toy [] []) "TPSA" "CCO"].
Proof.
  apply (@X6_one_descriptor_call_per_requested_key (toy [] [])
           (toy_calculator _ (InDict []) true) "CCO" (Some ["TPSA"; "MolWt"; "TPSA"]) []).
  repeat constructor; apply toy_supported; by eexists.
Defined.

(** * Further properties of [Molecule] and [calculate] *)

Section molecule_facts.
Context {C : Chem}.

Lemma strip_nulls (r : list (string * option Value)) (q : list (string * Value)) :
  mapM (λ kv : string * option Value, v ← kv.2; Some (kv.1, v)) r = Some q ↔
  r = prod_map id Some <$> q.
Proof.
  rewrite mapM_Some. split.
  - induction 1 as [|[k [v|]] [k' v'] r q Hkv _ IH]; [done| |done].
    cbn in Hkv. injection Hkv as <- <-. cbn. by rewrite IH.
  - intros ->. induction q as [|[k v] q IH]; by constructor.
Qed.

Lemma no_null_strip (r : list (string * option Value)) :
  no_null r ↔ ∃ q : list (string * Value), r = prod_map id Some <$> q.
Proof.
  split.
  - induction 1 as [|[k ov] r [v Hv] _ [q ->]]; [by exists []|].
    cbn in Hv. subst ov. by exists ((k, v) :: q).
  - intros [q ->]. unfold no_null. apply Forall_fmap, Forall_forall.
    intros [k v] _. by eexists.
Qed.

Lemma Molecule_new_iff n s (p : option (list (string * option Value))) :
  (∃ m, Molecule_new n s p = inr m) ↔
  (∀ s', s = Some s' → is_Some (MolFromSmiles s')) ∧ (∀ r, p = Some r → no_null r).
Proof.
  unfold Molecule_new, validate_smiles, validate_properties. split.
  - intros [m Hm]. split.
    + intros s' ->. by destruct (MolFromSmiles s').
    + intros r ->. apply no_null_strip.
      destruct s as [s'|]; [destruct (MolFromSmiles s'); [|done]|];
        (destruct (mapM _ r) as [q|] eqn:Hq; [|done]);
        exists q; by apply strip_nulls.
  - intros [Hs Hp].
    assert (∃ s0, match s with
                  | Some s' => if MolFromSmiles s' is Some _ then inr s
                               else inl ValidationError
                  | None => inr s
                  end = inr s0) as [s0 ->].
    { destruct s as [s'|]; [|by eexists].
      destruct (Hs s' eq_refl) as [? ->]. by eexists. }
    destruct p as [r|]; [|by eexists].
    destruct (proj1 (no_null_strip r) (Hp r eq_refl)) as [q Hq].
    apply strip_nulls in Hq. rewrite Hq. by eexists.
Qed.

(** X7.  [Molecule(name, smiles, properties)] is constructed exactly when
    [smiles] is [None] or parses and [properties] is [None] or has no null
    value; the record then holds the name, the identifier and the same
    properties.  Otherwise the construction raises a validation error. *)
Theorem X7_Molecule_construction
    (n : string) (s : option string) (p : option (list (string * option Value))) :
  ((∃ m, Molecule_new n s p = inr m) ↔
   (∀ s', s = Some s' → is_Some (MolFromSmiles s')) ∧ (∀ r, p = Some r → no_null r)) ∧
  (∀ m, Molecule_new n s p = inr m →
     name m = n ∧ smiles m = s ∧
     fmap (M := option) (fmap (prod_map id Some)) (properties m) = p) ∧
  (∀ err, Molecule_new n s p = inl err → err = ValidationError).
Proof.
  split_and!; [apply Molecule_new_iff|intros m|apply Molecule_new_inl].
  unfold Molecule_new, validate_smiles, validate_properties.
  destruct s as [s'|]; [destruct (MolFromSmiles s'); [|done]|];
    (destruct p as [r|]; [destruct (mapM _ r) as [q|] eqn:Hq; [|done]|]);
    intros [= <-]; cbn; split_and!; try done;
    apply strip_nulls in Hq; by rewrite Hq.
Qed.

Lemma Molecule_new_valid n s (r : list (string * option Value)) m :
  Molecule_new n s (Some r) = inr m → valid_record m ∧ no_null r.
Proof.
  intros Hm.
  assert (∃ m, Molecule_new n s (Some r) = inr m) as Hex by eauto.
  apply Molecule_new_iff in Hex as [Hs Hr].
  destruct (Molecule_new_inv _ _ _ _ Hm) as (_ & Hsm & Hp).
  split; [|by apply Hr]. split; [done|]. intros s' Hs'. apply Hs. congruence.
Qed.
End molecule_facts.

Section calculate_further.
Context {C : Chem}.
Implicit Types (self : Calculator) (requested : option (list string))
  (e : normalized) (es : list normalized)
  (results : list (string * entry)) (ms : list Molecule).

(** The two ways in which an entry is processed without an exception. *)
Lemma entry_cases self requested e results ms results' ms' t :
  calculate_entry self requested e results ms = (inr results', ms', t) →
  (ne_molecule e = None ∧ ms' = ms ∧ t = [] ∧
   results' = dict_set (ne_name e)
     {| entry_smiles := ne_identifier e; entry_properties := None |} results) ∨
  (∃ molecule cp m,
     ne_molecule e = Some molecule ∧
     outcome (_calculate_for_molecule self molecule requested ms) = inr cp ∧
     Molecule_new (ne_name e) (ne_identifier e) (Some cp) = inr m ∧
     ms' = ms ++ [m] ∧
     results' = dict_set (ne_name e)
       {| entry_smiles := ne_identifier e; entry_properties := Some cp |} results).
Proof.
  unfold calculate_entry. destruct (ne_molecule e) as [molecule|] eqn:He.
  - intros (cp & ms1 & t1 & t2 & Hcp & Hrest & ->)%bind_inv_inr.
    apply evaluate_molecule_set in Hcp as Hms1. subst ms1.
    apply bind_inv_inr in Hrest as (m & ms2 & t3 & t4 & Hm & Hrest & ->).
    unfold lift in Hm. injection Hm as Hm <- <-.
    apply bind_inv_inr in Hrest as ([] & ms3 & t5 & t6 & Happ & Hret & ->).
    unfold append in Happ. injection Happ as <- <-.
    unfold ret in Hret. injection Hret as <- <- <-.
    right. exists molecule, cp, m. split_and!; [done | by rewrite Hcp | done..].
  - unfold ret. intros [= <- <- <-]. by left.
Qed.

(** Whatever becomes of an entry, [self.molecule_set] is what it was,
    followed by at most one record, a valid one. *)
Lemma entry_molecule_set self requested e results ms o ms' t :
  calculate_entry self requested e results ms = (o, ms', t) →
  ∃ recs, ms' = ms ++ recs ∧ Forall valid_record recs.
Proof.
  destruct o as [err|results'].
  - intros [-> _]%entry_inv_inl. exists []. by rewrite (right_id_L [] (++)).
  - intros [(_ & -> & _)|(molecule & cp & m & _ & _ & Hm & -> & _)]%entry_cases.
    + exists []. by rewrite (right_id_L [] (++)).
    + exists [m]. split; [done|]. constructor; [|done].
      by apply Molecule_new_valid in Hm as [? _].
Qed.

Lemma run_molecule_set self requested es results ms o ms' t :
  for_each (calculate_entry self requested) es results ms = (o, ms', t) →
  ∃ recs, ms' = ms ++ recs ∧ Forall valid_record recs.
Proof.
  revert results ms o ms' t. induction es as [|e es IH]; intros results ms o ms' t.
  { unfold for_each, ret. intros [= <- <- <-]. exists [].
    by rewrite (right_id_L [] (++)). }
  cbn [for_each]. unfold bind.
  destruct (calculate_entry self requested e results ms) as [[[err|r1] ms1] t1] eqn:He;
    apply entry_molecule_set in He as (recs1 & -> & Hrecs1).
  - intros [= <- <- <-]. by exists recs1.
  - destruct (for_each _ es r1 (ms ++ recs1)) as [[o2 ms2] t2] eqn:Hrest.
    apply IH in Hrest as (recs2 & -> & Hrecs2). intros [= <- <- <-].
    exists (recs1 ++ recs2). rewrite (assoc_L (++)). split; [done|].
    by apply Forall_app.
Qed.

(** The records with which a run starts change neither its outcome, nor
    its events, nor the records it appends. *)
Lemma entry_state self requested e results ms :
  calculate_entry self requested e results ms =
  (outcome (calculate_entry self requested e results []),
   ms ++ molecule_set (calculate_entry self requested e results []),
   events (calculate_entry self requested e results [])).
Proof.
  unfold calculate_entry. destruct (ne_molecule e) as [molecule|].
  - unfold bind.
    pose proof (evaluate_state self molecule requested ms []) as Hms.
    destruct (_calculate_for_molecule self molecule requested []) as [[o0 ms0] t0] eqn:H0.
    apply evaluate_molecule_set in H0 as ->.
    unfold outcome, events in Hms. cbn [fst snd] in Hms. rewrite Hms.
    destruct o0 as [err|cp].
    + unfold outcome, molecule_set, events. cbn. by rewrite (right_id_L [] (++)).
    + unfold lift, append, ret.
      destruct (Molecule_new (ne_name e) (ne_identifier e) (Some cp)) as [err|m];
        unfold outcome, molecule_set, events; cbn;
        by rewrite ?(right_id_L [] (++)).
  - unfold ret, outcome, molecule_set, events. cbn. by rewrite (right_id_L [] (++)).
Qed.

Lemma run_state self requested es results ms :
  for_each (calculate_entry self requested) es results ms =
  (outcome (for_each (calculate_entry self requested) es results []),
   ms ++ molecule_set (for_each (calculate_entry self requested) es results []),
   events (for_each (calculate_entry self requested) es results [])).
Proof.
  revert results ms. induction es as [|e es IH]; intros results ms.
  { unfold for_each, ret, outcome, molecule_set, events. cbn.
    by rewrite (right_id_L [] (++)). }
  cbn [for_each]. unfold bind.
  rewrite (entry_state self requested e results ms).
  destruct (calculate_entry self requested e results []) as [[[err|r1] ms1] t1].
  - done.
  - unfold outcome, molecule_set, events. cbn [fst snd].
    rewrite (IH r1 (ms ++ ms1)), (IH r1 ms1).
    destruct (for_each _ es r1 []) as [[o2 ms2] t2].
    unfold outcome, molecule_set, events. cbn. by rewrite (assoc_L (++)).
Qed.
End calculate_further.

Section calculate_extras.
Context {C : Chem}.
Implicit Types (self : Calculator) (requested : option (list string))
  (e : normalized) (es : list normalized)
  (results : list (string * entry)) (ms : list Molecule).

Lemma evaluable_or_none es :
  Forall (λ e, ne_molecule e = None) es ∨ Exists (λ e, is_Some (ne_molecule e)) es.
Proof.
  induction es as [|e es [IH|IH]]; [by left| |].
  - destruct (ne_molecule e) eqn:He.
    + right. apply Exists_cons_hd. rewrite He. by eexists.
    + left. by constructor.
  - right. by apply Exists_cons_tl.
Qed.

Lemma calculate_molecule_set self as_df requested ms o ms' t :
  calculate self as_df requested ms = (o, ms', t) →
  ∃ recs, ms' = ms ++ recs ∧ Forall valid_record recs.
Proof.
  unfold calculate, bind. rewrite calculate_results_normalize.
  destruct (for_each _ _ [] ms) as [[[err|results] ms1] t1] eqn:Hrun;
    apply run_molecule_set in Hrun as (recs & -> & Hrecs).
  - intros [= <- <- <-]. by exists recs.
  - destruct as_df.
    + unfold to_dataframe, bind, get_molecule_set, lift, ret.
      destruct (to_dataframe_data (ms ++ recs) []); intros [= <- <- <-]; by exists recs.
    + unfold ret. intros [= <- <- <-]. by exists recs.
Qed.

(** X8.  Whatever a call of [calculate] does (return, or raise any
    exception), it only appends to [self.molecule_set]: the records that
    were there stay, in place and unchanged, and every record it appends
    has properties and an identifier that is [None] or parses. *)
Theorem X8_molecule_set_only_grows
    (self : Calculator) (as_df : bool) (requested : option (list string))
    (ms : list Molecule) :
  ∃ recs,
    molecule_set (calculate self as_df requested ms) = ms ++ recs ∧
    Forall valid_record recs.
Proof.
  destruct (calculate self as_df requested ms) as [[o ms'] t] eqn:Hcall.
  by apply calculate_molecule_set in Hcall.
Qed.

(** X12.  With [as_df] false, what [calculate] returns or raises, the
    calls it makes of the backend and the records it appends do not depend
    on the records accumulated by earlier calls: the returned mapping holds
    the entries of this call only. *)
Theorem X12_results_independent_of_earlier_calls
    (self : Calculator) (requested : option (list string)) (ms : list Molecule) :
  calculate self false requested ms =
  (outcome (calculate self false requested []),
   ms ++ molecule_set (calculate self false requested []),
   events (calculate self false requested [])).
Proof.
  unfold calculate, bind. rewrite !calculate_results_normalize.
  rewrite (run_state self requested _ [] ms).
  destruct (for_each _ _ [] []) as [[[err|results] ms1] t1];
    unfold outcome, molecule_set, events, ret; cbn; [done|].
  by rewrite (right_id_L [] (++)).
Qed.

Lemma run_no_null self requested es results ms results' ms' t :
  for_each (calculate_entry self requested) es results ms = (inr results', ms', t) →
  Forall (λ kv : string * entry, ∀ p, entry_properties kv.2 = Some p → no_null p) results →
  Forall (λ kv : string * entry, ∀ p, entry_properties kv.2 = Some p → no_null p) results'.
Proof.
  revert results ms t. induction es as [|e es IH]; intros results ms t.
  { unfold for_each, ret. by intros [= <- <- <-]. }
  cbn [for_each].
  intros (r1 & ms1 & t1 & t2 & He & Hrest & ->)%bind_inv_inr Hres.
  apply (IH _ _ _ Hrest).
  apply entry_cases in He
    as [(_ & _ & _ & ->)|(molecule & cp & m & _ & _ & Hm & _ & ->)].
  - by apply (Forall_values_dict_set
      (λ en : entry, ∀ p, entry_properties en = Some p → no_null p)).
  - apply (Forall_values_dict_set
      (λ en : entry, ∀ p, entry_properties en = Some p → no_null p)); [|done].
    cbn. intros p [= <-]. by apply Molecule_new_valid in Hm as [_ ?].
Qed.

(** X14.  A mapping that [calculate] returns never holds a null property
    value: the properties of an entry are [None] (the identifier did not
    parse) or a mapping in which every value is a number. *)
Theorem X14_returned_properties_have_no_null
    (self : Calculator) (requested : option (list string)) (ms ms' : list Molecule)
    (results : list (string * entry)) (t : list event) :
  calculate self false requested ms = (inr (RResults results), ms', t) →
  ∀ n en p, dict_get n results = Some en → entry_properties en = Some p → no_null p.
Proof.
  unfold calculate. intros (r & ms1 & t1 & t2 & Hrun & Hret & ->)%bind_inv_inr.
  unfold ret in Hret. injection Hret as <- <- <-.
  rewrite calculate_results_normalize in Hrun.
  apply run_no_null in Hrun; [|constructor].
  intros n en p Hn%dict_get_elem_of Hp.
  by apply (proj1 (Forall_forall _ _) Hrun (n, en)).
Qed.

Lemma entry_returns_iff self requested e results ms :
  (∀ s, ne_identifier e = Some s → MolFromSmiles s = ne_molecule e) →
  (∃ r ms' t, calculate_entry self requested e results ms = (inr r, ms', t)) ↔
  entry_ok self requested e.
Proof.
  intros Hwf. split.
  - intros (r & ms' & t & [(He & _)|(molecule & cp & m & He & Hcp & Hm & _)]%entry_cases).
    + intros molecule' ?. congruence.
    + intros molecule' Hmol. assert (molecule' = molecule) as -> by congruence.
      exists cp. split; [|by apply Molecule_new_valid in Hm as [_ ?]].
      rewrite (evaluate_state self molecule requested ms []) in Hcp. done.
  - intros Hok. unfold calculate_entry.
    destruct (ne_molecule e) as [molecule|] eqn:He; [|by eexists _, _, _].
    destruct (Hok molecule He) as (cp & Hcp & Hnn).
    assert (∃ m, Molecule_new (ne_name e) (ne_identifier e) (Some cp) = inr m)
      as [m Hm].
    { apply Molecule_new_iff. split.
      - intros s Hs. rewrite (Hwf s Hs). by eexists.
      - by intros r [= <-]. }
    unfold bind. rewrite (evaluate_state self molecule requested ms []), Hcp.
    unfold lift, append, ret. rewrite Hm. by eexists _, _, _.
Qed.

Lemma run_returns_iff self requested es results ms :
  Forall (λ e, ∀ s, ne_identifier e = Some s → MolFromSmiles s = ne_molecule e) es →
  (∃ r ms' t, for_each (calculate_entry self requested) es results ms = (inr r, ms', t)) ↔
  Forall (entry_ok self requested) es.
Proof.
  intros Hwf. revert results ms.
  induction Hwf as [|e es He _ IH]; intros results ms.
  { split; [by constructor | by eexists _, _, _]. }
  cbn [for_each]. split.
  - intros (r & ms' & t & (r1 & ms1 & t1 & t2 & H1 & H2 & _)%bind_inv_inr).
    constructor.
    + apply (entry_returns_iff self requested e results ms He). by eexists _, _, _.
    + apply (IH r1 ms1). by eexists _, _, _.
  - intros [Hok Hoks]%Forall_cons.
    apply (entry_returns_iff self requested e results ms He) in Hok
      as (r1 & ms1 & t1 & H1).
    apply (IH r1 ms1) in Hoks as (r2 & ms2 & t2 & H2).
    exists r2, ms2, (t1 ++ t2). rewrite (bind_inr _ _ _ _ _ _ H1). by rewrite H2.
Qed.

(** X13.  With [as_df] false, [calculate] returns a mapping exactly when,
    for every input entry that reaches the evaluator, the evaluator does
    not raise and records no null value: one descriptor function that
    raises for one structure makes the whole call raise. *)
Theorem X13_calculate_returns_iff
    (self : Calculator) (requested : option (list string)) (ms : list Molecule) :
  (∃ results ms' t,
     calculate self false requested ms = (inr (RResults results), ms', t)) ↔
  Forall (entry_ok self requested) (normalize (self_input_data self)).
Proof.
  rewrite <- (run_returns_iff self requested _ [] ms (normalize_wf _)).
  unfold calculate, bind. rewrite calculate_results_normalize.
  destruct (for_each _ _ [] ms) as [[[err|results] ms1] t1]; unfold ret.
  - split; by intros (? & ? & ? & ?).
  - split; intros _; by eexists _, _, _.
Qed.

(** X15.  If [calculate] raises the [KeyError] of [k], then the caller
    gave a non-empty list of keys in which [k] occurs, [k] is not in the
    registry, the keys listed before [k] are, and some input entry reached
    the evaluator. *)
Theorem X15_KeyError_only_for_requested_unknown_key
    (self : Calculator) (as_df : bool) (requested : option (list string))
    (ms ms' : list Molecule) (k : string) (t : list event) :
  calculate self as_df requested ms = (inl (KeyError k), ms', t) →
  ∃ pre post,
    requested = Some (pre ++ k :: post) ∧
    dict_get k self_properties = None ∧
    Forall (λ d, is_Some (dict_get d self_properties)) pre ∧
    Exists (λ e, is_Some (ne_molecule e)) (normalize (self_input_data self)).
Proof.
  intros Hcall.
  assert (for_each (calculate_entry self requested) (normalize (self_input_data self))
            [] ms = (inl (KeyError k), ms', t)) as Hrun.
  { unfold calculate in Hcall. rewrite <- calculate_results_normalize.
    apply bind_inv_inl in Hcall as [Hres|(results & ms1 & t1 & t2 & Hres & Hrest & ->)];
      [done|].
    destruct as_df; [|done].
    apply bind_inv_inl in Hrest as [Hdf|(data & ms2 & t3 & t4 & _ & Hret & _)]; [|done].
    unfold to_dataframe, bind, get_molecule_set, lift in Hdf.
    destruct (to_dataframe_data ms1 []) as [err|data] eqn:Hdata; [|done].
    apply to_dataframe_data_inl in Hdata. by simplify_eq. }
  pose proof Hrun as [[Hst _]|[_ ?]]%run_inv_inl; [|done].
  apply loop_status_KeyError in Hst as (pre & post & Hreq & Hk & Hpre & _).
  exists pre, post. split_and!; [|done|done|].
  - destruct requested as [[|d l]|]; cbn [properties_to_calculate] in Hreq.
    + assert (k ∈ dict_keys self_properties) as [? ?]%dict_get_in_keys; [|congruence].
      rewrite Hreq. apply elem_of_app. right. left.
    + by rewrite Hreq.
    + assert (k ∈ dict_keys self_properties) as [? ?]%dict_get_in_keys; [|congruence].
      rewrite Hreq. apply elem_of_app. right. left.
  - destruct (evaluable_or_none (normalize (self_input_data self))) as [Hnone|?];
      [|done].
    rewrite (run_not_evaluable _ _ _ _ _ Hnone) in Hrun. done.
Qed.
End calculate_extras.

(** * Further properties of the exported table *)

Lemma first_occurrences_app (l l' : list string) :
  first_occurrences (l ++ l') =
  first_occurrences l ++ filter (λ x, x ∉ l) (first_occurrences l').
Proof.
  induction l as [|x l IH]; cbn [app first_occurrences].
  - by rewrite filter_not_elem_of_nil.
  - rewrite IH, filter_app. f_equal. f_equal.
    rewrite list_filter_filter. apply list_filter_iff. intros y.
    rewrite not_elem_of_cons. tauto.
Qed.

Lemma filter_none {A} (P : A → Prop) `{!∀ x, Decision (P x)} (l : list A) :
  Forall (λ x, ¬ P x) l → filter P l = [].
Proof. induction 1; [done|]. by rewrite filter_cons_False. Qed.

Lemma first_occurrences_app_repeat (l l' : list string) :
  l' ⊆ l → first_occurrences (l ++ l') = first_occurrences l.
Proof.
  intros Hsub. rewrite first_occurrences_app, filter_none.
  - by rewrite (right_id_L [] (++)).
  - apply Forall_forall. intros y Hy Hnot.
    apply (proj1 (elem_of_first_occurrences y l')) in Hy.
    apply Hnot. by apply (Hsub y).
Qed.

Lemma dict_get_not_in_keys {A} (k : string) (d : list (string * A)) :
  k ∉ dict_keys d → dict_get k d = None.
Proof.
  intros Hk. destruct (dict_get k d) as [v|] eqn:Hget; [|done].
  destruct Hk. unfold dict_keys. apply list_elem_of_fmap. exists (k, v).
  split; [done | by apply dict_get_elem_of].
Qed.

(** Two dictionaries with the same keys in the same order and the same
    value for every key are the same dictionary. *)
Lemma dict_ext {A} (d1 d2 : list (string * A)) :
  NoDup (dict_keys d1) → dict_keys d1 = dict_keys d2 →
  (∀ k, dict_get k d1 = dict_get k d2) → d1 = d2.
Proof.
  unfold dict_keys. revert d2.
  induction d1 as [|[k1 v1] d1 IH]; intros [|[k2 v2] d2] Hnd Hkeys Hget; try done.
  rewrite !fmap_cons in Hkeys. injection Hkeys as <- Hkeys.
  apply NoDup_cons in Hnd as [Hk1 Hnd].
  pose proof (Hget k1) as Hv. cbn [dict_get] in Hv. rewrite !decide_True in Hv by done.
  injection Hv as <-. f_equal. apply IH; [done | done |].
  intros k. pose proof (Hget k) as Hk. cbn [dict_get] in Hk.
  case_decide as Heq; [|done]. subst k.
  rewrite (dict_get_not_in_keys k1 d1) by done.
  rewrite (dict_get_not_in_keys k1 d2); [done|]. unfold dict_keys. by rewrite <- Hkeys.
Qed.

Section table_extras.
Context {C : Chem}.
Implicit Types (self : Calculator) (requested : option (list string))
  (ms recs : list Molecule) (data : list (string * list (string * cell))).

(** The dictionary comprehension of [to_dataframe]: the names in the order
    of their first occurrence, and for each name the row of the last
    record of that name. *)
Lemma to_dataframe_last ms data0 :
  Forall (λ m, is_Some (properties m)) ms →
  ∃ data, to_dataframe_data ms data0 = inr data ∧
    dict_keys data =
      dict_keys data0 ++
      filter (λ x, x ∉ dict_keys data0) (first_occurrences (name <$> ms)) ∧
    ∀ n, dict_get n data =
      match last (filter (λ m, name m = n) ms) with
      | Some m => match row m with inr r => Some r | inl _ => None end
      | None => dict_get n data0
      end.
Proof.
  intros Hms. revert data0. induction Hms as [|m ms [p Hp] _ IH]; intros data0.
  { exists data0. split_and!; [done | | done]. cbn. by rewrite (right_id_L [] (++)). }
  destruct (row_columns m p Hp) as (r & Hr & _).
  destruct (IH (dict_set (name m) r data0)) as (data & Hdata & Hkeys & Hget).
  exists data. split_and!.
  - cbn [to_dataframe_data]. by rewrite Hr.
  - rewrite Hkeys, dict_keys_set. cbn [fmap list_fmap first_occurrences].
    case_decide as Hin.
    + rewrite filter_cons_False by (by intros []).
      by rewrite filter_first_occurrences_ne by (by intros []).
    + rewrite filter_cons_True by done.
      by rewrite filter_not_elem_of_snoc, <- (assoc_L (++)).
  - intros n. rewrite Hget, filter_cons, dict_get_set.
    destruct (decide (name m = n)) as [<-|Hne].
    + rewrite last_cons. destruct (last (filter _ ms)); [done|].
      rewrite decide_True by done. by rewrite Hr.
    + destruct (last (filter _ ms)); [done|]. by rewrite decide_False.
Qed.

(** X10.  [to_dataframe] on records that all have properties does not
    raise; its table has one row for each distinct name, in the order in
    which the names first occur in [self.molecule_set], and the row of a
    name is made of the last record of that name: of records with the same
    name, the later one replaces the earlier. *)
Theorem X10_table_keeps_last_record_of_a_name (ms : list Molecule) :
  Forall (λ m, is_Some (properties m)) ms →
  ∃ data, to_dataframe_data ms [] = inr data ∧
    dict_keys data = first_occurrences (name <$> ms) ∧
    ∀ n r, dict_get n data = Some r ↔
           ∃ m, last (filter (λ m, name m = n) ms) = Some m ∧ row m = inr r.
Proof.
  intros Hms. destruct (to_dataframe_last ms [] Hms) as (data & Hdata & Hkeys & Hget).
  exists data. split_and!; [done | |].
  - rewrite Hkeys. cbn [dict_keys fmap list_fmap app]. apply filter_not_elem_of_nil.
  - intros n r. rewrite Hget. destruct (last (filter _ ms)) as [m|].
    + split.
      * destruct (row m) as [err|r'] eqn:Hr; [done|]. intros [= <-]. by exists m.
      * intros (m' & [= <-] & ->). done.
    + split; [done | by intros (m' & ? & _)].
Qed.

Lemma to_dataframe_repeat ms recs :
  Forall (λ m, is_Some (properties m)) (ms ++ recs) →
  to_dataframe_data ((ms ++ recs) ++ recs) [] = to_dataframe_data (ms ++ recs) [].
Proof.
  intros Hall.
  assert (Forall (λ m, is_Some (properties m)) ((ms ++ recs) ++ recs)) as Hall2.
  { apply Forall_app. split; [done|]. by apply Forall_app in Hall as [_ ?]. }
  destruct (to_dataframe_last _ [] Hall) as (data1 & -> & Hkeys1 & Hget1).
  destruct (to_dataframe_last _ [] Hall2) as (data2 & -> & Hkeys2 & Hget2).
  f_equal. cbn [dict_keys fmap list_fmap app] in Hkeys1, Hkeys2.
  rewrite filter_not_elem_of_nil in Hkeys1, Hkeys2.
  apply dict_ext.
  - rewrite Hkeys2. apply NoDup_first_occurrences.
  - rewrite Hkeys1, Hkeys2, (fmap_app name (ms ++ recs) recs).
    apply first_occurrences_app_repeat. intros x Hx.
    rewrite fmap_app. apply elem_of_app. by right.
  - intros n. rewrite Hget1, Hget2. rewrite (filter_app _ (ms ++ recs) recs), last_app.
    rewrite (filter_app _ ms recs), last_app.
    by destruct (last (filter _ recs)).
Qed.

(** X9.  From a [self.molecule_set] in which every record has properties
    (the empty one of a new calculator, and every one [calculate] leaves),
    [calculate] never raises [TypeError]: [to_dataframe] never meets a
    record without properties. *)
Theorem X9_calculate_never_raises_TypeError
    (self : Calculator) (as_df : bool) (requested : option (list string))
    (ms : list Molecule) :
  Forall (λ m, is_Some (properties m)) ms →
  outcome (calculate self as_df requested ms) ≠ inl TypeError.
Proof.
  intros Hms Hout.
  destruct (calculate self as_df requested ms) as [[o ms'] t] eqn:Hcall.
  unfold outcome in Hout. cbn in Hout. subst o. unfold calculate in Hcall.
  apply bind_inv_inl in Hcall as [Hres|(results & ms1 & t1 & t2 & Hres & Hrest & ->)].
  - rewrite calculate_results_normalize in Hres.
    apply run_inv_inl in Hres as [[Hst _]|[_ ?]]; [|done].
    by apply loop_status_kinds in Hst as [?|(k & ? & _)].
  - destruct as_df; [|done].
    rewrite calculate_results_normalize in Hres.
    apply run_molecule_set in Hres as (recs & -> & Hrecs).
    destruct (to_dataframe_last (ms ++ recs) []) as (data & Hdata & _).
    { apply Forall_app. split; [done|].
      eapply Forall_impl; [exact Hrecs|]. by intros m [? _]. }
    unfold to_dataframe, bind, get_molecule_set, lift, ret in Hrest.
    by rewrite Hdata in Hrest.
Qed.

(** X11.  Repeating a call of [calculate] with [as_df] true has the
    outcome of the first call, the same table or the same exception: the
    second call appends again the records the first one appended, and
    [to_dataframe] keeps one row for each name. *)
Theorem X11_repeated_export_gives_the_same_table
    (self : Calculator) (requested : option (list string)) (ms : list Molecule) :
  ∃ recs,
    molecule_set (calculate self true requested ms) = ms ++ recs ∧
    outcome (calculate self true requested (ms ++ recs)) =
      outcome (calculate self true requested ms) ∧
    molecule_set (calculate self true requested (ms ++ recs)) = (ms ++ recs) ++ recs ∧
    events (calculate self true requested (ms ++ recs)) =
      events (calculate self true requested ms).
Proof.
  pose proof (run_state self requested (normalize (self_input_data self)) [] ms) as H1.
  destruct (for_each (calculate_entry self requested) (normalize (self_input_data self))
              [] []) as [[o0 recs] t0] eqn:H0.
  pose proof (run_state self requested (normalize (self_input_data self)) []
                (ms ++ recs)) as H2.
  rewrite H0 in H2. unfold outcome, molecule_set, events in H1, H2. cbn [fst snd] in H1, H2.
  exists recs. unfold calculate, bind. rewrite !calculate_results_normalize, H1, H2.
  destruct o0 as [err|results]; [done|].
  unfold to_dataframe, bind, get_molecule_set, lift, ret.
  destruct (to_dataframe_data (ms ++ recs) []) as [err|data] eqn:Hdata.
  - pose proof (to_dataframe_data_inl _ _ _ Hdata) as ->.
    apply to_dataframe_data_inl_None in Hdata as (m & Hm & Hp).
    rewrite (to_dataframe_data_None ((ms ++ recs) ++ recs) [] m);
      [done | apply elem_of_app; by left | done].
  - rewrite (to_dataframe_repeat ms recs) by (by eapply to_dataframe_data_inr).
    by rewrite Hdata.
Qed.
End table_extras.

(** ** The further properties on the small backend *)

Lemma X9_witness :
  outcome (@calculate (toy [] [])
             (toy_calculator _ (InDict [("ethanol", "CCO")]) true) true None []) ≠
  inl TypeError.
Proof.
  apply (@X9_calculate_never_raises_TypeError (toy [] [])
           (toy_calculator _ (InDict [("ethanol", "CCO")]) true) true None []).
  constructor.
Defined.

Lemma X10_witness :
  ∃ data,
    @to_dataframe_data (toy [] [])
      [ @Build_Molecule (toy [] []) "a" None (Some [("MW", 1)]);
        @Build_Molecule (toy [] []) "b" None (Some [("MW", 2)]);
        @Build_Molecule (toy [] []) "a" None (Some [("MW", 3)]) ] [] =
    inr data ∧
    dict_keys data = ["a"; "b"].
Proof.
  destruct (@X10_table_keeps_last_record_of_a_name (toy [] [])
    [ @Build_Molecule (toy [] []) "a" None (Some [("MW", 1)]);
      @Build_Molecule (toy [] []) "b" None (Some [("MW", 2)]);
      @Build_Molecule (toy [] []) "a" None (Some [("MW", 3)]) ])
    as (data & Hdata & Hkeys & _).
  - repeat constructor; by eexists.
  - by exists data.
Defined.

Lemma X14_witness : @no_null (toy [] []) [("MW", Some 3)].
Proof.
  apply (@X14_returned_properties_have_no_null (toy [] [])
           (toy_calculator _
              (InDict [("ethanol", "CCO"); ("bad", "not_a_real_molecule!!")]) true)
           (Some ["MolWt"]) []
           [@Build_Molecule (toy [] []) "ethanol" (Some "CCO") (Some [("MW", 3)])]
           [("ethanol", @Build_entry (toy [] []) (Some "CCO") (Some [("MW", Some 3)]));
            ("bad", @Build_entry (toy [] []) (Some "not_a_real_molecule!!") None)]
           [@Evaluate (toy [] []) "CCO"; @Compute (toy [] []) "MolWt" "CCO"]
           eq_refl "ethanol"
           (@Build_entry (toy [] []) (Some "CCO") (Some [("MW", Some 3)]))
           [("MW", Some 3)]); reflexivity.
Defined.

Lemma X15_witness :
  ∃ pre post,
    Some ["MolWt"; "NoSuchKey"] = Some (pre ++ "NoSuchKey" :: post) ∧
    dict_get "NoSuchKey" self_properties = None ∧
    Forall (λ d, is_Some (dict_get d self_properties)) pre ∧
    Exists (λ e, is_Some (ne_molecule e))
      (@normalize (toy [] []) (InDict [("ethanol", "CCO")])).
Proof.
  apply (@X15_KeyError_only_for_requested_unknown_key (toy [] [])
           (toy_calculator _ (InDict [("ethanol", "CCO")]) true) false
           (Some ["MolWt"; "NoSuchKey"]) [] [] "NoSuchKey"
           [@Evaluate (toy [] []) "CCO"; @Compute (toy [] []) "MolWt" "CCO"]).
  reflexivity.
Defined.

Section partial_failure.
Context {C : Chem}.

(** X16.  A call of [calculate] that raises is not undone: when the
    entries before some entry are processed without an exception, and the
    evaluator records a null value for that entry, the call raises a
    validation error, and [self.molecule_set] keeps the records appended
    for the entries before it (one for each that parsed or was an
    object). *)
Theorem X16_validation_error_keeps_earlier_records
    (self : Calculator) (as_df : bool) (requested : option (list string))
    (ms : list Molecule) (pre post : list normalized) (e : normalized)
    (molecule : Mol) (cp : list (string * option Value)) :
  normalize (self_input_data self) = pre ++ e :: post →
  Forall (entry_ok self requested) pre →
  ne_molecule e = Some molecule →
  outcome (_calculate_for_molecule self molecule requested []) = inr cp →
  ¬ no_null cp →
  ∃ recs t,
    calculate self as_df requested ms = (inl ValidationError, ms ++ recs, t) ∧
    Forall2 record_of recs (filter (λ e, evaluable e) pre).
Proof.
  intros Hinp Hpre He Hcp Hnull.
  pose proof (normalize_wf (self_input_data self)) as Hwf. rewrite Hinp in Hwf.
  apply Forall_app in Hwf as [Hwf _].
  destruct (proj2 (run_returns_iff self requested pre [] ms Hwf) Hpre)
    as (r1 & ms1 & t1 & Hrun).
  destruct (run_inv_inr _ _ _ _ _ _ _ _ Hrun) as (_ & (recs & -> & Hrecs) & _).
  assert (∃ t2, calculate_entry self requested e r1 (ms ++ recs) =
                (inl ValidationError, ms ++ recs, t2)) as [t2 Hentry].
  { unfold calculate_entry. rewrite He. unfold bind.
    rewrite (evaluate_state self molecule requested (ms ++ recs) []), Hcp.
    unfold lift.
    destruct (Molecule_new (ne_name e) (ne_identifier e) (Some cp)) as [err|m] eqn:Hm.
    - apply Molecule_new_inl in Hm as ->. by eexists.
    - by apply Molecule_new_valid in Hm as [_ ?]. }
  exists recs, (t1 ++ t2). split; [|done].
  unfold calculate. apply bind_inl. rewrite calculate_results_normalize, Hinp.
  rewrite for_each_app, (bind_inr _ _ _ _ _ _ Hrun). cbn [for_each].
  by rewrite (bind_inl _ _ _ _ _ _ Hentry).
Qed.
End partial_failure.

Lemma X16_witness :
  ∃ recs t,
    @calculate (toy_failing ["c1ccccc1"])
      (toy_calculator _ (InDict [("ethanol", "CCO"); ("benzene", "c1ccccc1")]) true)
      false (Some ["MolWt"]) [] = (inl ValidationError, [] ++ recs, t) ∧
    Forall2 record_of recs
      (filter (λ e, evaluable e)
         [@normalize_named (toy_failing ["c1ccccc1"]) ("ethanol", "CCO")]).
Proof.
  apply (@X16_validation_error_keeps_earlier_records (toy_failing ["c1ccccc1"])
           (toy_calculator _ (InDict [("ethanol", "CCO"); ("benzene", "c1ccccc1")]) true)
           false (Some ["MolWt"]) []
           [@normalize_named (toy_failing ["c1ccccc1"]) ("ethanol", "CCO")] []
           (@normalize_named (toy_failing ["c1ccccc1"]) ("benzene", "c1ccccc1"))
           "c1ccccc1" [("MW", None)]).
  - reflexivity.
  - repeat constructor. intros molecule [= <-]. eexists. split; [reflexivity|].
    repeat constructor. by eexists.
  - reflexivity.
  - reflexivity.
  - intros Hnn. apply Forall_cons in Hnn as [[? Hv] _]. discriminate Hv.
Defined.
